(** * cs2-api: the server registry worker and the gamemode detector

    A shallow embedding of
    - [src/utils/gamemode-detector.js] ([detectGamemode]),
    - [src/utils/config.js] (the [worker] block),
    - the [masterWorker], [serverWorker] and [cleanupWorker] job handlers of
      the worker process, and
    - the paging and sorting of the [/api/servers] endpoint,
    followed by the properties of the online/offline state machine, of the
    clean-up job, of the gamemode classifier, of the master-list job and of
    the paging. *)

From stdpp Require Import gmap strings list fin_maps.
From Stdlib Require Import ZArith Ascii String Lia.

Local Open Scope string_scope.
Local Open Scope Z_scope.

(** ** JavaScript string primitives

    Strings are sequences of 8-bit characters.  [toLowerCase] maps the
    letters [A]-[Z] to [a]-[z] and leaves every other character alone,
    which is what [String.prototype.toLowerCase] does on ASCII text. *)
Module JS.

Definition lower_ascii (c : ascii) : ascii :=
  let n := nat_of_ascii c in
  if ((65 <=? n) && (n <=? 90))%nat then ascii_of_nat (n + 32) else c.

Fixpoint toLowerCase (s : string) : string :=
  match s with
  | EmptyString => EmptyString
  | String c s' => String (lower_ascii c) (toLowerCase s')
  end.

(** [s.startsWith(p)] *)
Fixpoint startsWith (s p : string) : bool :=
  match p with
  | EmptyString => true
  | String b p' =>
      match s with
      | EmptyString => false
      | String a s' => Ascii.eqb a b && startsWith s' p'
      end
  end.

(** [s.includes(p)] *)
Fixpoint includes (s p : string) : bool :=
  startsWith s p ||
  match s with
  | EmptyString => false
  | String _ s' => includes s' p
  end.

(** [s.split(sep)] for a separator of one character: the result is never
    empty, and [''.split(',')] is [['']]. *)
Fixpoint split (sep : ascii) (s : string) : list string :=
  match s with
  | EmptyString => [EmptyString]
  | String c s' =>
      if Ascii.eqb c sep then EmptyString :: split sep s'
      else match split sep s' with
           | h :: t => String c h :: t
           | [] => [String c EmptyString]
           end
  end.

(** [tags.some(pred)] *)
Definition some {A} (p : A -> bool) (l : list A) : bool := existsb p l.

(** [x || ''] on an optional string: [undefined] and [''] are falsy. *)
Definition or_empty (x : option string) : string :=
  match x with
  | Some s => s
  | None => ""
  end.

(** [x || d] on an optional string. *)
Definition or_string (x : option string) (d : string) : string :=
  match x with
  | Some (String c s) => String c s
  | _ => d
  end.

(** Truthiness of a string and of a number ([None] is [NaN]). *)
Definition truthy_string (s : string) : bool :=
  match s with
  | EmptyString => false
  | String _ _ => true
  end.

Definition truthy_number (n : option Z) : bool :=
  match n with
  | Some n => negb (n =? 0)
  | None => false
  end.

(** *** [parseInt(string, radix)]

    The result is [None] for [NaN].  Numbers are taken as exact integers
    (the source's doubles are exact below 2^53). *)
Definition is_space (c : ascii) : bool :=
  let n := nat_of_ascii c in
  ((9 <=? n) && (n <=? 13) || (n =? 32))%nat.

Fixpoint trimStart (s : string) : string :=
  match s with
  | String c s' => if is_space c then trimStart s' else s
  | EmptyString => EmptyString
  end.

Definition digit_value (c : ascii) : option Z :=
  let n := Z.of_nat (nat_of_ascii c) in
  if (48 <=? n) && (n <=? 57) then Some (n - 48)
  else if (97 <=? n) && (n <=? 122) then Some (n - 87)
  else if (65 <=? n) && (n <=? 90) then Some (n - 55)
  else None.

(** The longest prefix of radix-[R] digits, read as a number; [acc] is
    [None] as long as no digit was read. *)
Fixpoint digits (R : Z) (s : string) (acc : option Z) : option Z :=
  match s with
  | String c s' =>
      match digit_value c with
      | Some d =>
          if d <? R
          then digits R s' (Some (match acc with Some a => a | None => 0 end * R + d))
          else acc
      | None => acc
      end
  | EmptyString => acc
  end.

Definition strip_sign (s : string) : Z * string :=
  match s with
  | String "-" s' => (-1, s')
  | String "+" s' => (1, s')
  | _ => (1, s)
  end.

Definition strip_hex_prefix (s : string) : option string :=
  match s with
  | String "0" (String "x" s') => Some s'
  | String "0" (String "X" s') => Some s'
  | _ => None
  end.

(** [string] is [None] for [undefined], which [ToString] turns into the
    text ["undefined"]; [radix] is [None] when the argument is left out. *)
Definition parseInt (string : option string) (radix : option Z) : option Z :=
  let inputString := match string with Some s => s | None => "undefined" end in
  let '(sign, str) := strip_sign (trimStart inputString) in
  let R := match radix with Some r => r | None => 0 end in
  if negb (R =? 0) && ((R <? 2) || (36 <? R)) then None
  else
    let stripPrefix := (R =? 0) || (R =? 16) in
    let R := if R =? 0 then 10 else R in
    let '(R, str) :=
      if stripPrefix
      then match strip_hex_prefix str with
           | Some str' => (16, str')
           | None => (R, str)
           end
      else (R, str) in
    match digits R str None with
    | Some n => Some (sign * n)
    | None => None
    end.

End JS.

(** ** What the server query returns

    The fields of the Gamedig result that the worker and the detector read.
    [None] stands for a property that is [undefined]. *)

(** [serverData.raw.tags] is an array of strings, one string, or neither. *)
Inductive RawTags :=
| TagsArray (l : list string)
| TagsString (s : string)
| TagsOther.

Record RawData := {
  raw_steamid : option string;
  raw_secure : option bool;
  raw_version : option string;
  raw_tags : RawTags
}.

Record Player := { player_name : string }.

Record ServerData := {
  sd_name : option string;
  sd_map : option string;
  sd_password : option bool;
  sd_raw : option RawData;
  sd_players : list Player;
  sd_maxplayers : Z;
  sd_bots : option (list Player);
  sd_ping : Z;
  sd_connect : option string;
  sd_queryPort : option Z
}.

(** ** [src/utils/gamemode-detector.js] *)
Module Detector.
Import JS.

(** Lines 7-9: [serverData.raw?.tags] taken as it is when it is an array,
    split at commas when it is a string, and [[]] otherwise. *)
Definition tags_of (serverData : ServerData) : list string :=
  match sd_raw serverData with
  | Some raw =>
      match raw_tags raw with
      | TagsArray l => l
      | TagsString s => split "," s
      | TagsOther => []
      end
  | None => []
  end.

Definition detectGamemode (serverData : ServerData) : string :=
  let name := toLowerCase (or_empty (sd_name serverData)) in
  let map := toLowerCase (or_empty (sd_map serverData)) in
  let tags := tags_of serverData in
  if startsWith map "surf_" || includes name "surf"
     || some (fun tag => includes tag "surf") tags
  then "surf"
  else if startsWith map "bhop_" || includes name "bhop" || includes name "bunnyhop"
          || some (fun tag => includes tag "bhop" || includes tag "bunnyhop") tags
  then "bhop"
  else if startsWith map "ze_" || includes name "zombie" || includes name "ze "
          || some (fun tag => includes tag "ze" || includes tag "zombie") tags
  then "ze"
  else if startsWith map "kz_" || includes name " kz" || includes name "climb"
          || some (fun tag => includes tag "kz" || includes tag "climb") tags
  then "kz"
  else if includes name "deathmatch" || includes name " dm "
          || some (fun tag => includes tag "dm" || includes tag "deathmatch") tags
  then "dm"
  else if includes name "retake" || some (fun tag => includes tag "retake") tags
  then "retake"
  else if includes name "awp" || startsWith map "awp_"
          || some (fun tag => includes tag "awp") tags
  then "awp"
  else if startsWith map "aim_" || includes name "aim" || includes name "1v1"
          || some (fun tag => includes tag "aim" || includes tag "1v1") tags
  then "aim"
  else if startsWith map "jb_" || includes name "jail" || includes name "jailbreak"
          || some (fun tag => includes tag "jail" || includes tag "jb") tags
  then "jb"
  else if includes name "gungame" || includes name "arms race"
          || some (fun tag => includes tag "gungame" || includes tag "gg") tags
  then "gungame"
  else if (startsWith map "surf_" || includes name "surf")
          && (includes name "combat" || includes name "dm")
  then "csurf"
  else if includes name "minigame" || startsWith map "mg_"
          || some (fun tag => includes tag "minigame" || includes tag "mg") tags
  then "mg"
  else if includes name "hide" || includes name "prop hunt"
          || some (fun tag => includes tag "hide" || includes tag "hns") tags
  then "hns"
  else "public".

End Detector.

(** ** [src/utils/config.js], the [worker] block

    Every option is [parseInt(process.env.X || default)]; [None] is [NaN]. *)
Module Config.
Import JS.

Record Worker := {
  concurrency : option Z;
  masterServerQueryInterval : option Z;
  serverQueryTimeout : option Z;
  serverOfflineThreshold : option Z;
  serverDeleteThresholdDays : option Z
}.

Definition worker (env : string -> option string) : Worker := {|
  concurrency := parseInt (Some (or_string (env "WORKER_CONCURRENCY") "20")) None;
  masterServerQueryInterval :=
    parseInt (Some (or_string (env "MASTER_SERVER_QUERY_INTERVAL") "300000")) None;
  serverQueryTimeout := parseInt (Some (or_string (env "SERVER_QUERY_TIMEOUT") "5000")) None;
  serverOfflineThreshold := parseInt (Some (or_string (env "SERVER_OFFLINE_THRESHOLD") "3")) None;
  serverDeleteThresholdDays :=
    parseInt (Some (or_string (env "SERVER_DELETE_THRESHOLD_DAYS") "7")) None
|}.

(** The configuration of a process started with none of the variables set. *)
Definition defaults : Worker := worker (fun _ => None).

End Config.

(** ** The [servers] table

    A row maps column names to values; a column that is missing from the map
    is SQL [NULL], like one that holds [Null].  Timestamps are instants in
    milliseconds: [toISOString] of a valid date and the comparison of
    [timestamptz] columns both follow the order of the instants. *)
Inductive Value :=
| Null
| Text (s : string)
| Num (n : Z)
| Bool (b : bool)
| Time (t : Z).

Abbreviation Row := (gmap string Value).

(** A JavaScript property value on its way into a request body. *)
Inductive JsValue :=
| Undefined
| NaN
| Val (v : Value).

Abbreviation JsObject := (list (string * JsValue)).

(** [JSON.stringify] leaves out a property that is [undefined] and writes
    [NaN] as [null]. *)
Definition to_json (v : JsValue) : option Value :=
  match v with
  | Undefined => None
  | NaN => Some Null
  | Val v => Some v
  end.

(** The columns named in the request body overwrite those of the row, all
    others are kept. *)
Definition patch (body : JsObject) (row : Row) : Row :=
  foldr (fun kv r => match to_json kv.2 with
                     | Some v => <[kv.1 := v]> r
                     | None => r
                     end) row body.

Definition number (n : option Z) : JsValue :=
  match n with
  | Some n => Val (Num n)
  | None => NaN
  end.

Inductive Level := DEBUG | INFO | WARN | ERROR.

Record LogEntry := {
  level : Level;
  message : string;
  log_addr : option string
}.

(** The database with its schema (the column defaults an [INSERT] fills in;
    the schema is not part of the repository) and the log written so far. *)
Record World := {
  column_defaults : Row;
  db : gmap string Row;
  logs : list LogEntry
}.

Definition with_db (w : World) (d : gmap string Row) : World :=
  {| column_defaults := column_defaults w; db := d; logs := logs w |}.

Inductive Exn :=
| QueryError (msg : string)
| PostgrestError (msg : string)
| RangeError (msg : string).

(** ** Jobs: state, log and exceptions *)
Inductive Completion (A : Type) :=
| Normal (a : A)
| Throw (e : Exn).
Arguments Normal {A} a.
Arguments Throw {A} e.

Definition M (A : Type) : Type := World -> Completion A * World.

#[global] Instance M_ret : MRet M := fun A a w => (Normal a, w).

#[global] Instance M_bind : MBind M := fun A B f m w =>
  match m w with
  | (Normal a, w') => f a w'
  | (Throw e, w') => (Throw e, w')
  end.

Definition throw {A} (e : Exn) : M A := fun w => (Throw e, w).

(** [try { body } catch (e) { handler }] *)
Definition try_catch {A} (body : M A) (handler : Exn -> M A) : M A := fun w =>
  match body w with
  | (Normal a, w') => (Normal a, w')
  | (Throw e, w') => handler e w'
  end.

Definition logger (l : Level) (msg : string) (addr : option string) : M unit := fun w =>
  (Normal tt,
   {| column_defaults := column_defaults w; db := db w;
      logs := (logs w ++ [ {| level := l; message := msg; log_addr := addr |} ])%list |}).

(** The world a job leaves behind, and what the job returns. *)
Definition exec {A} (m : M A) (w : World) : World := (m w).2.
Definition result {A} (m : M A) (w : World) : Completion A := (m w).1.

(** ** The Supabase client

    Every call resolves to [{ data, error }].  Which calls of a job come
    back with an [error] is an input of the job; a call that fails leaves
    the table as it was. *)
Record Faults := {
  upsert_fails : bool;
  rpc_fails : bool;
  select_fails : bool;
  update_fails : bool;
  delete_fails : bool
}.

Definition no_faults : Faults :=
  {| upsert_fails := false; rpc_fails := false; select_fails := false;
     update_fails := false; delete_fails := false |}.

Module Supabase.

(** [obj[k]] *)
Fixpoint prop (k : string) (obj : JsObject) : JsValue :=
  match obj with
  | [] => Undefined
  | (k', v) :: obj' => if String.eqb k k' then v else prop k obj'
  end.

(** [.from('servers').upsert(body, { onConflict: 'addr' })]: the row with
    the body's [addr] gets the body's columns, or a new row is inserted
    with the schema's defaults in the columns the body leaves out. *)
Definition upsert (fails : bool) (body : JsObject) : M (option Exn) := fun w =>
  if fails then (Normal (Some (PostgrestError "upsert failed")), w)
  else
    match prop "addr" body with
    | Val (Text a) =>
        let old := match db w !! a with
                   | Some r => r
                   | None => column_defaults w
                   end in
        (Normal None, with_db w (<[a := patch body old]> (db w)))
    | _ => (Normal (Some (PostgrestError "no conflict key")), w)
    end.

(** The body of the stored procedure [increment_server_seen_count]:
    [UPDATE servers SET seen_count = seen_count + 1 WHERE addr = addr_param]. *)
Definition increment_seen_count (r : Row) : Row :=
  match r !! "seen_count" with
  | Some (Num n) => <["seen_count" := Num (n + 1)]> r
  | _ => r
  end.

Definition rpc_increment_server_seen_count (fails : bool) (addr_param : string)
  : M (option Exn) := fun w =>
  if fails then (Normal (Some (PostgrestError "rpc failed")), w)
  else
    match db w !! addr_param with
    | Some r => (Normal None, with_db w (<[addr_param := increment_seen_count r]> (db w)))
    | None => (Normal None, w)
    end.

(** [.select('missed_count, status').eq('addr', addr).single()]: [data],
    which is [null] when there is no such row or the call fails. *)
Definition select_missed_count_status (fails : bool) (addr : string)
  : M (option (option Value * option Value)) := fun w =>
  if fails then (Normal None, w)
  else
    match db w !! addr with
    | Some r => (Normal (Some (r !! "missed_count", r !! "status")), w)
    | None => (Normal None, w)
    end.

(** [.update(body).eq('addr', addr)] *)
Definition update (fails : bool) (body : JsObject) (addr : string)
  : M (option Exn) := fun w =>
  if fails then (Normal (Some (PostgrestError "update failed")), w)
  else
    match db w !! addr with
    | Some r => (Normal None, with_db w (<[addr := patch body r]> (db w)))
    | None => (Normal None, w)
    end.

(** The filter [.eq('status', 'offline').lt('offline_since', cutoff)]:
    a comparison with [NULL] selects nothing. *)
Definition offline_before (cutoff : Z) (r : Row) : bool :=
  match r !! "status", r !! "offline_since" with
  | Some (Text s), Some (Time t) => String.eqb s "offline" && (t <? cutoff)
  | _, _ => false
  end.

(** [.delete({ count: 'exact' })] with that filter: [error] and [count]. *)
Definition delete_offline_before (fails : bool) (cutoff : Z)
  : M (option Exn * Z) := fun w =>
  if fails then (Normal (Some (PostgrestError "delete failed"), 0), w)
  else
    let gone := filter (fun kv => offline_before cutoff kv.2 = true) (db w) in
    let kept := filter (fun kv => ¬ offline_before cutoff kv.2 = true) (db w) in
    (Normal (None, Z.of_nat (size gone)), with_db w kept).

End Supabase.

(** ** JavaScript dates

    A time value is a number of milliseconds since the epoch, in UTC.  The
    time zone of the process is an input: the offset of local time from UTC
    at a UTC time value ([LocalTime]) and at a local time value ([UTC]). *)
Definition ms_per_day : Z := 86400000.

Module JSDate.

Record TimeZone := {
  offset_at_utc : Z → Z;
  offset_at_local : Z → Z
}.

(** A zone whose clocks never change, [o] ms ahead of UTC. *)
Definition fixed_zone (o : Z) : TimeZone :=
  {| offset_at_utc := fun _ => o; offset_at_local := fun _ => o |}.

Definition LocalTime (tz : TimeZone) (t : Z) : Z := t + offset_at_utc tz t.
Definition UTC (tz : TimeZone) (t : Z) : Z := t - offset_at_local tz t.

Definition Day (t : Z) : Z := t / ms_per_day.
Definition TimeWithinDay (t : Z) : Z := t mod ms_per_day.

(** The day of the month, 1 to 31, of a time value (the proleptic Gregorian
    calendar, counted from 1 March 0000 in cycles of 400 years). *)
Definition DateFromTime (t : Z) : Z :=
  let z := Day t + 719468 in
  let era := z / 146097 in
  let doe := z - era * 146097 in
  let yoe := (doe - doe / 1460 + doe / 36524 - doe / 146096) / 365 in
  let doy := doe - (365 * yoe + yoe / 4 - yoe / 100) in
  let mp := (5 * doy + 2) / 153 in
  doy - (153 * mp + 2) / 5 + 1.

(** [MakeDay(YearFromTime(t), MonthFromTime(t), dt)]: the day number of the
    first day of the month of [t], which is [DateFromTime t - 1] days before
    the day of [t], plus [dt - 1]. *)
Definition MakeDay_in_month_of (t dt : Z) : Z :=
  (Day t - (DateFromTime t - 1)) + dt - 1.

Definition MakeDate (day time : Z) : Z := day * ms_per_day + time.

(** [TimeClip]: a time value further than 8.64e15 ms from the epoch is no
    date ([None], the invalid date). *)
Definition TimeClip (time : Z) : option Z :=
  if Z.abs time <=? 8640000000000000 then Some time else None.

(** [d.getDate()] of a valid date. *)
Definition getDate (tz : TimeZone) (t : Z) : Z := DateFromTime (LocalTime tz t).

(** [d.setDate(dt)] on a valid date with time value [t]: the new time value.
    [dt] is [None] for [NaN]. *)
Definition setDate (tz : TimeZone) (t : Z) (dt : option Z) : option Z :=
  match dt with
  | None => None
  | Some dt =>
      let t := LocalTime tz t in
      let newDate := MakeDate (MakeDay_in_month_of t dt) (TimeWithinDay t) in
      TimeClip (UTC tz newDate)
  end.

End JSDate.

(** ** The worker process *)

(** The outcome of [Gamedig.query]: the promise resolves with the server's
    data or rejects. *)
Inductive Probe :=
| Hit (serverData : ServerData)
| Miss (msg : string).

Module Worker.
Import JS JSDate Supabase Config Detector.

Definition Gamedig_query (p : Probe) : M ServerData :=
  match p with
  | Hit serverData => mret serverData
  | Miss msg => throw (QueryError msg)
  end.

(** Lines 406-412: [addr.split(':')], [parseInt(portStr, 10)] and the
    check [!host || !port]; [None] when the address is refused. *)
Definition parse_addr (addr : string) : option (string * Z) :=
  let parts := split ":" addr in
  let host := match parts !! 0%nat with Some h => h | None => "" end in
  let portStr := parts !! 1%nat in
  let port := parseInt portStr (Some 10) in
  if negb (truthy_string host) || negb (truthy_number port) then None
  else match port with
       | Some port => Some (host, port)
       | None => None
       end.

(** [x || null] and [x || false], and a property that may be [undefined]. *)
Definition or_null (x : option string) : JsValue :=
  match x with
  | Some (String c s) => Val (Text (String c s))
  | _ => Val Null
  end.

Definition or_false (x : option bool) : JsValue :=
  match x with
  | Some b => Val (Bool b)
  | None => Val (Bool false)
  end.

Definition text_or_undefined (x : option string) : JsValue :=
  match x with
  | Some s => Val (Text s)
  | None => Undefined
  end.

(** [serverData.connect ? parseInt(serverData.connect.split(':')[1]) : port] *)
Definition connect_port (connect : option string) (port : Z) : JsValue :=
  match connect with
  | Some (String c s) => number (parseInt (split ":" (String c s) !! 1%nat) None)
  | _ => Val (Num port)
  end.

(** [serverData.queryPort || port] *)
Definition query_port_or (queryPort : option Z) (port : Z) : JsValue :=
  match queryPort with
  | Some q => if q =? 0 then Val (Num port) else Val (Num q)
  | None => Val (Num port)
  end.

(** [serverData.bots?.length || 0] *)
Definition bots_length (bots : option (list Player)) : JsValue :=
  match bots with
  | Some l => Val (Num (Z.of_nat (List.length l)))
  | None => Val (Num 0)
  end.

(** Lines 429-450: the record sent to the database. *)
Definition serverRecord (addr host : string) (port : Z) (serverData : ServerData)
    (gamemode : string) (now : Z) : JsObject :=
  [ ("addr", Val (Text addr));
    ("ip", Val (Text host));
    ("port", connect_port (sd_connect serverData) port);
    ("query_port", query_port_or (sd_queryPort serverData) port);
    ("steam_id", or_null (sd_raw serverData ≫= raw_steamid));
    ("name", text_or_undefined (sd_name serverData));
    ("map", text_or_undefined (sd_map serverData));
    ("gamemode", Val (Text gamemode));
    ("password", or_false (sd_password serverData));
    ("vac", or_false (sd_raw serverData ≫= raw_secure));
    ("version", or_null (sd_raw serverData ≫= raw_version));
    ("players", Val (Num (Z.of_nat (List.length (sd_players serverData)))));
    ("max_players", Val (Num (sd_maxplayers serverData)));
    ("bots", bots_length (sd_bots serverData));
    ("ping", Val (Num (sd_ping serverData)));
    ("status", Val (Text "online"));
    ("offline_since", Val Null);
    ("seen_count", Undefined);
    ("missed_count", Val (Num 0));
    ("updated_at", Val (Time now)) ].

(** [newMissedCount >= config.worker.serverOfflineThreshold]; a comparison
    with [NaN] is false. *)
Definition ge_threshold (n : Z) (threshold : option Z) : bool :=
  match threshold with
  | Some t => t <=? n
  | None => false
  end.

(** [existingServer.status !== 'offline'] *)
Definition not_offline (status : option Value) : bool :=
  match status with
  | Some (Text s) => negb (String.eqb s "offline")
  | _ => true
  end.

(** [(existingServer.missed_count || 0) + 1] *)
Definition next_missed_count (missed_count : option Value) : Z :=
  match missed_count with
  | Some (Num n) => n + 1
  | _ => 0 + 1
  end.

(** Lines 471-519: the [catch] block of the job. *)
Definition handle_failure (config : Worker) (flt : Faults) (now : Z) (addr : string)
    (error : Exn) : M (option JsObject) :=
  logger DEBUG "Failed to query server" (Some addr);;
  try_catch
    (existingServer ← select_missed_count_status (select_fails flt) addr;
     match existingServer with
     | Some (missed_count, status) =>
         let newMissedCount := next_missed_count missed_count in
         let updateData :=
           [ ("missed_count", Val (Num newMissedCount));
             ("updated_at", Val (Time now));
             ("seen_count", Val (Num 0)) ] in
         updateData ←
           (if ge_threshold newMissedCount (serverOfflineThreshold config)
               && not_offline status
            then
              logger INFO "Marking server as offline" (Some addr);;
              mret (updateData ++ [ ("status", Val (Text "offline"));
                                    ("offline_since", Val (Time now)) ])%list
            else mret updateData);
         error ← update (update_fails flt) updateData addr;
         match error with
         | Some _ => logger ERROR "Failed to update server offline status" (Some addr)
         | None => mret tt
         end
     | None => mret tt
     end)
    (fun dbError => logger ERROR "Database error handling offline server" (Some addr));;
  mret None.

(** Lines 402-520: one [server-query] job.  [probe] is what the query of
    the server comes back with, [now] the clock of the job. *)
Definition serverWorker (config : Worker) (flt : Faults) (now : Z) (probe : Probe)
    (addr : string) : M (option JsObject) :=
  match parse_addr addr with
  | None =>
      logger WARN "Invalid server address received" (Some addr);;
      mret None
  | Some (host, port) =>
      try_catch
        (serverData ← Gamedig_query probe;
         let gamemode := detectGamemode serverData in
         let serverRecord := serverRecord addr host port serverData gamemode now in
         error ← upsert (upsert_fails flt) serverRecord;
         _ ← rpc_increment_server_seen_count (rpc_fails flt) addr;
         match error with
         | Some e => throw e
         | None => mret (Some serverRecord)
         end)
        (handle_failure config flt now addr)
  end.

(** Lines 524-525: [new Date()] and
    [cutoffDate.setDate(cutoffDate.getDate() - days)]; the number of days is
    [None] when the configured value is [NaN]. *)
Definition cutoff_date (tz : TimeZone) (now : Z) (days : option Z) : option Z :=
  setDate tz now (match days with
                  | Some days => Some (getDate tz now - days)
                  | None => None
                  end).

(** Lines 523-546: one [offline-cleanup] job, in a process with time zone
    [tz].  When the cut-off is no valid date, [toISOString] throws a
    [RangeError] in line 527, before anything is logged or asked of the
    database. *)
Definition cleanupWorker (config : Worker) (tz : TimeZone) (flt : Faults) (now : Z)
    : M Z :=
  match cutoff_date tz now (serverDeleteThresholdDays config) with
  | None => throw (RangeError "Invalid time value")
  | Some cutoffDate =>
      logger INFO "Cleaning up servers offline since" None;;
      try_catch
        ('(error, count) ← delete_offline_before (delete_fails flt) cutoffDate;
         match error with
         | Some e => throw e
         | None =>
             logger INFO "Deleted servers that have been offline for more than" None;;
             mret count
         end)
        (fun error =>
           logger ERROR "Failed to clean up offline servers" None;;
           throw error)
  end.

End Worker.

(** ** The master-list job *)

(** ** [masterWorker] (lines 357-399)

    The job asks the master server for the addresses, puts one
    [query-server] job per address on the queue, a hundred at a time, and
    records the time.  What the master server answers, which [addBulk] call
    (if any) rejects and the clock are inputs. *)
Module Master.

Record Backoff := { backoff_type : string; delay : Z }.
Record JobOpts := { attempts : Z; backoff : Backoff }.
Record Job := { name : string; data_addr : string; opts : JobOpts }.

Record State := {
  queue : list Job;
  last_master_update : option Z;
  mlogs : list LogEntry
}.

Definition BATCH_SIZE : nat := 100.

(** [servers.slice(i, j)] for [i <= j]; indices past the end are clipped. *)
Definition slice {A} (i j : nat) (l : list A) : list A := take (j - i) (drop i l).

(** [batch.map(addr => ({ name, data: { addr }, opts }))] *)
Definition make_job (addr : string) : Job :=
  {| name := "query-server"; data_addr := addr;
     opts := {| attempts := 2;
                backoff := {| backoff_type := "exponential"; delay := 1000 |} |} |}.

(** The batches of the loop [for (i = 0; i < servers.length; i += BATCH_SIZE)],
    started at [i]; every round moves [i] forward, so [length servers] rounds
    of fuel are never used up. *)
Fixpoint batches_from (fuel i : nat) (servers : list string) : list (list string) :=
  match fuel with
  | O => []
  | S fuel' =>
      if (i <? List.length servers)%nat
      then slice i (i + BATCH_SIZE) servers
             :: batches_from fuel' (i + BATCH_SIZE) servers
      else []
  end.

Definition batches (servers : list string) : list (list string) :=
  batches_from (List.length servers) 0 servers.

Definition log (l : Level) (msg : string) (st : State) : State :=
  {| queue := queue st; last_master_update := last_master_update st;
     mlogs := (mlogs st ++ [ {| level := l; message := msg; log_addr := None |} ])%list |}.

(** [await serverQueryQueue.addBulk(jobs)] for the batches in turn, number
    [k] first; the call numbered [fails_at] rejects, which ends the loop. *)
Fixpoint add_batches (k : nat) (bs : list (list string)) (fails_at : option nat)
    (st : State) : Completion unit * State :=
  match bs with
  | [] => (Normal tt, st)
  | batch :: bs' =>
      if decide (fails_at = Some k) then (Throw (QueryError "addBulk failed"), st)
      else
        let st' :=
          {| queue := (queue st ++ (make_job <$> batch))%list;
             last_master_update := last_master_update st; mlogs := mlogs st |} in
        add_batches (S k) bs' fails_at (log DEBUG "Queued batch of server queries" st')
  end.

Definition masterWorker (getServers : option (list string)) (fails_at : option nat)
    (now : Z) (st : State) : Completion Z * State :=
  let st := log INFO "Starting Master Server query for CS2 servers" st in
  let '(c, st) :=
    match getServers with
    | None => (Throw (QueryError "getServers failed"), st)
    | Some servers =>
        let st := log INFO "Found CS2 servers from Master Server" st in
        match add_batches 0 (batches servers) fails_at st with
        | (Throw e, st) => (Throw e, st)
        | (Normal _, st) =>
            let st := {| queue := queue st; last_master_update := Some now;
                         mlogs := mlogs st |} in
            let st := log INFO "Successfully queued servers for querying" st in
            (Normal (Z.of_nat (List.length servers)), st)
        end
    end in
  match c with
  | Normal queued => (Normal queued, st)
  | Throw error =>
      (Throw error, log ERROR "Failed to fetch or process Master Server list" st)
  end.

End Master.

(** ** The read API: paging and sorting of [/api/servers] *)

(** ** Lines 189-200 and 213

    The query parameters are strings, [None] when the parameter is not
    given; row counts are below 2^52, where the division of doubles is
    exact enough for [Math.ceil]. *)
Module Api.
Import JS.

(** A destructuring default, [{ page = '1' }]: used when the property is
    [undefined] only. *)
Definition or_default (x : option string) (d : string) : string :=
  match x with
  | Some s => s
  | None => d
  end.

(** [n || d] for a number [n]: [NaN] and 0 are falsy. *)
Definition number_or (n : option Z) (d : Z) : Z :=
  match n with
  | Some n => if n =? 0 then d else n
  | None => d
  end.

(** [Math.max(parseInt(page) || 1, 1)] *)
Definition pageInt (page : option string) : Z :=
  Z.max (number_or (parseInt (Some (or_default page "1")) None) 1) 1.

(** [Math.min(parseInt(limit) || 50, 100)] *)
Definition limitInt (limit : option string) : Z :=
  Z.min (number_or (parseInt (Some (or_default limit "50")) None) 50) 100.

(** [query.range(start, start + limitInt - 1)], both ends included. *)
Definition range (pageInt limitInt : Z) : Z * Z :=
  let start := (pageInt - 1) * limitInt in
  (start, start + limitInt - 1).

(** [Math.ceil(count / limitInt)] *)
Definition pages (count limitInt : Z) : Z := - ((- count) / limitInt).

Definition validSortFields : list string :=
  [ "name"; "players"; "map"; "ping"; "last_seen" ].

(** [validSortFields.includes(sortBy) ? sortBy : 'players'] *)
Definition sort_field (sortBy : option string) : string :=
  let sortBy := or_default sortBy "players" in
  if existsb (String.eqb sortBy) validSortFields then sortBy else "players".

(** [sortOrder.toLowerCase() === 'asc'] *)
Definition ascending (sortOrder : option string) : bool :=
  String.eqb (toLowerCase (or_default sortOrder "desc")) "asc".

End Api.

(** * The vocabulary of the properties *)
Import JS JSDate Supabase Config Detector Worker.

(** ** Rows after a job *)

(** The row a successful probe leaves behind, given the row found. *)
Definition hit_row (now : Z) (addr host : string) (port : Z)
    (serverData : ServerData) (old : Row) : Row :=
  increment_seen_count
    (patch (serverRecord addr host port serverData (detectGamemode serverData) now) old).

(** The row a failed probe leaves behind, given the row found. *)
Definition miss_row (config : Config.Worker) (now : Z) (old : Row) : Row :=
  let newMissedCount := next_missed_count (old !! "missed_count") in
  let updateData :=
    [ ("missed_count", Val (Num newMissedCount));
      ("updated_at", Val (Time now));
      ("seen_count", Val (Num 0)) ] in
  if ge_threshold newMissedCount (serverOfflineThreshold config)
     && not_offline (old !! "status")
  then patch (updateData ++ [ ("status", Val (Text "offline"));
                              ("offline_since", Val (Time now)) ])%list old
  else patch updateData old.

(** ** Sequences of jobs for one address *)

(** The jobs of one address in the order they run, each with its clock and
    the outcome of its probe; no call to the database fails. *)
Definition run (config : Config.Worker) (addr : string) (jobs : list (Z * Probe))
    (w : World) : World :=
  foldl (fun w j => exec (serverWorker config no_faults j.1 j.2 addr) w) w jobs.

Definition is_miss (p : Probe) : bool :=
  match p with
  | Miss _ => true
  | Hit _ => false
  end.

Definition all_miss (jobs : list (Z * Probe)) : Prop :=
  forallb (fun j => is_miss j.2) jobs = true.

(** ** The tables the worker can build

    From an empty table, by jobs of the two workers in any order, with any
    configuration, time zone and clock, none of whose database calls fails. *)
Inductive Reachable : World → Prop :=
| reach_empty defaults l :
    Reachable {| column_defaults := defaults; db := ∅; logs := l |}
| reach_serverWorker w config now probe addr :
    Reachable w →
    Reachable (exec (serverWorker config no_faults now probe addr) w)
| reach_cleanupWorker w config tz now :
    Reachable w →
    Reachable (exec (cleanupWorker config tz no_faults now) w).

(** Rows exist only under addresses the worker accepts, and a row that is
    offline has [seen_count] 0. *)
Definition table_ok (w : World) : Prop :=
  ∀ a r, db w !! a = Some r →
         is_Some (parse_addr a) ∧
         (r !! "status" = Some (Text "offline") → r !! "seen_count" = Some (Num 0)).

(** *** The detector as an ordered list of rules

    The classifier of the specification: rules in a fixed order, the first
    that matches wins, [public] when none does.  A rule looks at the map and
    the name, and at every tag. *)
Record Rule := {
  gamemode : string;
  on_map_name : string → string → bool;
  on_tag : string → bool
}.

Definition rules : list Rule :=
  [ {| gamemode := "surf";
       on_map_name := fun map name => startsWith map "surf_" || includes name "surf";
       on_tag := fun tag => includes tag "surf" |};
    {| gamemode := "bhop";
       on_map_name := fun map name =>
         startsWith map "bhop_" || includes name "bhop" || includes name "bunnyhop";
       on_tag := fun tag => includes tag "bhop" || includes tag "bunnyhop" |};
    {| gamemode := "ze";
       on_map_name := fun map name =>
         startsWith map "ze_" || includes name "zombie" || includes name "ze ";
       on_tag := fun tag => includes tag "ze" || includes tag "zombie" |};
    {| gamemode := "kz";
       on_map_name := fun map name =>
         startsWith map "kz_" || includes name " kz" || includes name "climb";
       on_tag := fun tag => includes tag "kz" || includes tag "climb" |};
    {| gamemode := "dm";
       on_map_name := fun map name => includes name "deathmatch" || includes name " dm ";
       on_tag := fun tag => includes tag "dm" || includes tag "deathmatch" |};
    {| gamemode := "retake";
       on_map_name := fun map name => includes name "retake";
       on_tag := fun tag => includes tag "retake" |};
    {| gamemode := "awp";
       on_map_name := fun map name => includes name "awp" || startsWith map "awp_";
       on_tag := fun tag => includes tag "awp" |};
    {| gamemode := "aim";
       on_map_name := fun map name =>
         startsWith map "aim_" || includes name "aim" || includes name "1v1";
       on_tag := fun tag => includes tag "aim" || includes tag "1v1" |};
    {| gamemode := "jb";
       on_map_name := fun map name =>
         startsWith map "jb_" || includes name "jail" || includes name "jailbreak";
       on_tag := fun tag => includes tag "jail" || includes tag "jb" |};
    {| gamemode := "gungame";
       on_map_name := fun map name => includes name "gungame" || includes name "arms race";
       on_tag := fun tag => includes tag "gungame" || includes tag "gg" |};
    {| gamemode := "csurf";
       on_map_name := fun map name =>
         (startsWith map "surf_" || includes name "surf")
         && (includes name "combat" || includes name "dm");
       on_tag := fun tag => false |};
    {| gamemode := "mg";
       on_map_name := fun map name => includes name "minigame" || startsWith map "mg_";
       on_tag := fun tag => includes tag "minigame" || includes tag "mg" |};
    {| gamemode := "hns";
       on_map_name := fun map name => includes name "hide" || includes name "prop hunt";
       on_tag := fun tag => includes tag "hide" || includes tag "hns" |} ].

Definition rule_matches (r : Rule) (map name : string) (tags : list string) : bool :=
  on_map_name r map name || some (on_tag r) tags.

Fixpoint first_match (rs : list Rule) (map name : string) (tags : list string) : string :=
  match rs with
  | [] => "public"
  | r :: rs' => if rule_matches r map name tags then gamemode r
                else first_match rs' map name tags
  end.

Definition classify (serverData : ServerData) : string :=
  first_match rules
    (toLowerCase (or_empty (sd_map serverData)))
    (toLowerCase (or_empty (sd_name serverData)))
    (tags_of serverData).

(** No rule matches on a tag. *)
Definition no_matching_tag (tags : list string) : Prop :=
  forallb (fun r => negb (some (on_tag r) tags)) rules = true.

(** ** Further vocabulary *)

(** The world in which the [try] block of a successful probe ends: after
    the upsert and the call of the stored procedure. *)
Definition after_try (flt : Faults) (now : Z) (addr host : string) (port : Z)
    (serverData : ServerData) (w : World) : World :=
  let w1 :=
    if upsert_fails flt then w
    else with_db w
           (<[addr := patch (serverRecord addr host port serverData
                               (detectGamemode serverData) now)
                        (match db w !! addr with
                         | Some r => r
                         | None => column_defaults w
                         end)]> (db w)) in
  if rpc_fails flt then w1
  else match db w1 !! addr with
       | Some r => with_db w1 (<[addr := increment_seen_count r]> (db w1))
       | None => w1
       end.

(** The key is an address the worker accepts and the row carries it; status
    and [offline_since] agree; [missed_count] is a number that is not
    negative, at least 1 in a row that is offline; one of the two counters
    is 0. *)
Definition row_ok (a : string) (r : Row) : Prop :=
  (∃ host port, parse_addr a = Some (host, port) ∧ r !! "ip" = Some (Text host)) ∧
  r !! "addr" = Some (Text a) ∧
  (r !! "status" = Some (Text "online") ∧ r !! "offline_since" = Some Null ∨
   r !! "status" = Some (Text "offline") ∧ ∃ t, r !! "offline_since" = Some (Time t)) ∧
  (∃ m, r !! "missed_count" = Some (Num m) ∧ 0 ≤ m ∧
        (r !! "status" = Some (Text "offline") → 1 ≤ m)) ∧
  (r !! "missed_count" = Some (Num 0) ∨ r !! "seen_count" = Some (Num 0)).

(** A table with one row: a server seen once and then missed three times,
    under the default configuration. *)
Definition casual_server : ServerData :=
  {| sd_name := Some "Casual"; sd_map := Some "de_dust2"; sd_password := None;
     sd_raw := None; sd_players := []; sd_maxplayers := 10; sd_bots := None;
     sd_ping := 20; sd_connect := None; sd_queryPort := None |}.

Definition table_after_three_misses : World :=
  let a := "10.0.0.1:27015" in
  exec (serverWorker Config.defaults no_faults 4000 (Miss "timeout") a)
    (exec (serverWorker Config.defaults no_faults 3000 (Miss "timeout") a)
       (exec (serverWorker Config.defaults no_faults 2000 (Miss "timeout") a)
          (exec (serverWorker Config.defaults no_faults 1000 (Hit casual_server) a)
             {| column_defaults := {[ "seen_count" := Num 0 ]}; db := ∅; logs := [] |}))).

Definition row_after_three_misses : Row :=
  list_to_map
    [ ("addr", Text "10.0.0.1:27015"); ("ip", Text "10.0.0.1"); ("port", Num 27015);
      ("query_port", Num 27015); ("steam_id", Null); ("name", Text "Casual");
      ("map", Text "de_dust2"); ("gamemode", Text "public"); ("password", Bool false);
      ("vac", Bool false); ("version", Null); ("players", Num 0);
      ("max_players", Num 10); ("bots", Num 0); ("ping", Num 20);
      ("status", Text "offline"); ("offline_since", Time 4000); ("seen_count", Num 0);
      ("missed_count", Num 3); ("updated_at", Time 4000) ].

(** The answer with other tags, name or map. *)
Definition with_tags (serverData : ServerData) (t : RawTags) : ServerData :=
  {| sd_name := sd_name serverData; sd_map := sd_map serverData;
     sd_password := sd_password serverData;
     sd_raw := Some {| raw_steamid := sd_raw serverData ≫= raw_steamid;
                       raw_secure := sd_raw serverData ≫= raw_secure;
                       raw_version := sd_raw serverData ≫= raw_version;
                       raw_tags := t |};
     sd_players := sd_players serverData; sd_maxplayers := sd_maxplayers serverData;
     sd_bots := sd_bots serverData; sd_ping := sd_ping serverData;
     sd_connect := sd_connect serverData; sd_queryPort := sd_queryPort serverData |}.

Definition with_name_map (serverData : ServerData) (name map : option string)
    : ServerData :=
  {| sd_name := name; sd_map := map;
     sd_password := sd_password serverData; sd_raw := sd_raw serverData;
     sd_players := sd_players serverData; sd_maxplayers := sd_maxplayers serverData;
     sd_bots := sd_bots serverData; sd_ping := sd_ping serverData;
     sd_connect := sd_connect serverData; sd_queryPort := sd_queryPort serverData |}.

(** The gamemodes the detector can answer. *)
Definition gamemodes : list string :=
  [ "surf"; "bhop"; "ze"; "kz"; "dm"; "retake"; "awp"; "aim"; "jb"; "gungame";
    "mg"; "hns"; "public" ].

(** A word without comma. *)
Fixpoint no_comma (s : string) : bool :=
  match s with
  | EmptyString => true
  | String c s' => negb (Ascii.eqb c ",") && no_comma s'
  end.

(** * Properties *)

(** ** Reading a patched row *)
Lemma patch_cons_ne k k' v body (r : Row) :
  k' ≠ k → patch ((k', v) :: body) r !! k = patch body r !! k.
Proof.
  intros Hne. unfold patch; cbn [foldr fst snd].
  destruct (to_json v); [by rewrite lookup_insert_ne|done].
Qed.

Lemma patch_cons_eq k x body (r : Row) :
  patch ((k, Val x) :: body) r !! k = Some x.
Proof. unfold patch; cbn [foldr fst snd to_json]. by rewrite lookup_insert_eq. Qed.

Lemma patch_cons_undefined k body (r : Row) :
  patch ((k, Undefined) :: body) r = patch body r.
Proof. reflexivity. Qed.

Lemma patch_nil (r : Row) : patch [] r = r.
Proof. reflexivity. Qed.

Ltac patch_lookup :=
  repeat first
    [ rewrite patch_cons_eq
    | rewrite patch_cons_undefined
    | rewrite patch_cons_ne by done
    | rewrite patch_nil ].

Lemma increment_seen_count_ne (r : Row) k :
  k ≠ "seen_count" → increment_seen_count r !! k = r !! k.
Proof.
  intros Hne. unfold increment_seen_count.
  destruct (r !! "seen_count") as [[]|]; try done.
  by rewrite lookup_insert_ne.
Qed.

Lemma increment_seen_count_num (r : Row) n :
  r !! "seen_count" = Some (Num n) →
  increment_seen_count r !! "seen_count" = Some (Num (n + 1)).
Proof.
  intros Hn. unfold increment_seen_count. rewrite Hn. by rewrite lookup_insert_eq.
Qed.

(** ** What one job does to the table *)
Section ServerWorkerSteps.
Context (config : Config.Worker) (now : Z) (addr host : string) (port : Z).
Hypothesis Haddr : parse_addr addr = Some (host, port).

Lemma hit_db serverData w :
  db (exec (serverWorker config no_faults now (Hit serverData) addr) w) =
  <[addr := hit_row now addr host port serverData (match db w !! addr with
                                | Some r => r
                                | None => column_defaults w
                                end)]> (db w).
Proof.
  unfold serverWorker. rewrite Haddr.
  unfold exec, try_catch, Gamedig_query, mbind, M_bind, mret, M_ret.
  cbn [upsert_fails rpc_fails no_faults].
  unfold upsert. cbn [serverRecord prop String.eqb Ascii.eqb Bool.eqb].
  unfold rpc_increment_server_seen_count. cbn [db with_db].
  rewrite lookup_insert_eq. cbn [snd db with_db].
  rewrite insert_insert_eq. unfold hit_row. reflexivity.
Qed.

Lemma miss_db msg w r :
  db w !! addr = Some r →
  db (exec (serverWorker config no_faults now (Miss msg) addr) w) =
  <[addr := miss_row config now r]> (db w).
Proof.
  intros Hr. unfold serverWorker. rewrite Haddr.
  unfold exec, try_catch, Gamedig_query, throw, handle_failure.
  unfold mbind, M_bind, mret, M_ret, try_catch, logger.
  cbn [select_fails update_fails no_faults].
  unfold select_missed_count_status. cbn [db]. rewrite Hr.
  unfold miss_row.
  destruct (ge_threshold _ _ && not_offline _);
    unfold update; cbn [db]; rewrite Hr; reflexivity.
Qed.

Lemma miss_db_absent msg w :
  db w !! addr = None →
  db (exec (serverWorker config no_faults now (Miss msg) addr) w) = db w.
Proof.
  intros Hr. unfold serverWorker. rewrite Haddr.
  unfold exec, try_catch, Gamedig_query, throw, handle_failure.
  unfold mbind, M_bind, mret, M_ret, try_catch, logger.
  cbn [select_fails update_fails no_faults].
  unfold select_missed_count_status. cbn [db]. rewrite Hr.
  reflexivity.
Qed.

End ServerWorkerSteps.

Lemma serverWorker_refused config flt now probe addr w :
  parse_addr addr = None →
  db (exec (serverWorker config flt now probe addr) w) = db w.
Proof. intros Hno. unfold serverWorker. rewrite Hno. reflexivity. Qed.

(** A job touches no row but the one of its address. *)
Lemma serverWorker_other config now probe addr a w :
  a ≠ addr →
  db (exec (serverWorker config no_faults now probe addr) w) !! a = db w !! a.
Proof.
  intros Hne. destruct (parse_addr addr) as [[host port]|] eqn:Haddr.
  - destruct probe as [serverData|msg].
    + rewrite (hit_db _ _ _ _ _ Haddr). by rewrite lookup_insert_ne.
    + destruct (db w !! addr) as [r|] eqn:Hr.
      * rewrite (miss_db _ _ _ _ _ Haddr _ _ _ Hr). by rewrite lookup_insert_ne.
      * by rewrite (miss_db_absent _ _ _ _ _ Haddr _ _ Hr).
  - by rewrite serverWorker_refused.
Qed.

(** ** The columns of the row after a job *)
Section Rows.
Context (config : Config.Worker) (now : Z) (addr host : string) (port : Z).

Lemma hit_row_status serverData old :
  hit_row now addr host port serverData old !! "status" = Some (Text "online").
Proof.
  unfold hit_row. rewrite increment_seen_count_ne by done.
  unfold serverRecord. by patch_lookup.
Qed.

Lemma hit_row_offline_since serverData old :
  hit_row now addr host port serverData old !! "offline_since" = Some Null.
Proof.
  unfold hit_row. rewrite increment_seen_count_ne by done.
  unfold serverRecord. by patch_lookup.
Qed.

Lemma hit_row_missed_count serverData old :
  hit_row now addr host port serverData old !! "missed_count" = Some (Num 0).
Proof.
  unfold hit_row. rewrite increment_seen_count_ne by done.
  unfold serverRecord. by patch_lookup.
Qed.

Lemma hit_row_updated_at serverData old :
  hit_row now addr host port serverData old !! "updated_at" = Some (Time now).
Proof.
  unfold hit_row. rewrite increment_seen_count_ne by done.
  unfold serverRecord. by patch_lookup.
Qed.

Lemma hit_row_seen_count serverData old n :
  old !! "seen_count" = Some (Num n) →
  hit_row now addr host port serverData old !! "seen_count" = Some (Num (n + 1)).
Proof.
  intros Hn. unfold hit_row. apply increment_seen_count_num.
  unfold serverRecord. by patch_lookup.
Qed.

Lemma miss_row_missed_count old :
  miss_row config now old !! "missed_count"
  = Some (Num (next_missed_count (old !! "missed_count"))).
Proof.
  unfold miss_row.
  destruct (ge_threshold _ _ && not_offline _); cbn [app]; by patch_lookup.
Qed.

Lemma miss_row_seen_count old :
  miss_row config now old !! "seen_count" = Some (Num 0).
Proof.
  unfold miss_row.
  destruct (ge_threshold _ _ && not_offline _); cbn [app]; by patch_lookup.
Qed.

Lemma miss_row_updated_at old :
  miss_row config now old !! "updated_at" = Some (Time now).
Proof.
  unfold miss_row.
  destruct (ge_threshold _ _ && not_offline _); cbn [app]; by patch_lookup.
Qed.

(** The transition: it needs the threshold reached and a row that is not
    offline yet. *)
Lemma miss_row_transition old :
  ge_threshold (next_missed_count (old !! "missed_count"))
    (serverOfflineThreshold config) && not_offline (old !! "status") = true →
  miss_row config now old !! "status" = Some (Text "offline") ∧
  miss_row config now old !! "offline_since" = Some (Time now).
Proof.
  intros Hc. unfold miss_row. rewrite Hc. cbn [app]. split; by patch_lookup.
Qed.

Lemma miss_row_no_transition old :
  ge_threshold (next_missed_count (old !! "missed_count"))
    (serverOfflineThreshold config) && not_offline (old !! "status") = false →
  miss_row config now old !! "status" = old !! "status" ∧
  miss_row config now old !! "offline_since" = old !! "offline_since".
Proof.
  intros Hc. unfold miss_row. rewrite Hc. split; by patch_lookup.
Qed.

End Rows.

Lemma run_snoc config addr jobs j w :
  run config addr (jobs ++ [j]) w
  = exec (serverWorker config no_faults j.1 j.2 addr) (run config addr jobs w).
Proof. unfold run. by rewrite foldl_app. Qed.

(** ** The state machine *)

Lemma miss_step config now addr host port msg w r :
  parse_addr addr = Some (host, port) →
  db w !! addr = Some r →
  db (exec (serverWorker config no_faults now (Miss msg) addr) w) !! addr
  = Some (miss_row config now r).
Proof.
  intros Haddr Hr. rewrite (miss_db _ _ _ _ _ Haddr _ _ _ Hr).
  by rewrite lookup_insert_eq.
Qed.

Lemma hit_step config now addr host port serverData w :
  parse_addr addr = Some (host, port) →
  db (exec (serverWorker config no_faults now (Hit serverData) addr) w) !! addr
  = Some (hit_row now addr host port serverData
            (match db w !! addr with Some r => r | None => column_defaults w end)).
Proof.
  intros Haddr. rewrite (hit_db _ _ _ _ _ Haddr). by rewrite lookup_insert_eq.
Qed.

(** C5: every further failed probe of a server that is offline adds one to
    [missed_count] and leaves [offline_since] (and the status) as they were,
    however many of them follow each other. *)
Theorem miss_while_offline_keeps_offline_since config addr host port jobs w r m :
  parse_addr addr = Some (host, port) →
  db w !! addr = Some r →
  r !! "status" = Some (Text "offline") →
  r !! "missed_count" = Some (Num m) →
  all_miss jobs →
  ∃ r', db (run config addr jobs w) !! addr = Some r' ∧
        r' !! "status" = Some (Text "offline") ∧
        r' !! "offline_since" = r !! "offline_since" ∧
        r' !! "missed_count" = Some (Num (m + Z.of_nat (List.length jobs))).
Proof.
  intros Haddr Hr Hst Hm Hall. revert w r m Hr Hst Hm.
  induction jobs as [|[t [serverData|msg]] jobs IH]; intros w r m Hr Hst Hm;
    try discriminate Hall.
  - exists r. cbn. rewrite Z.add_0_r. done.
  - specialize (IH Hall). cbn [run foldl fst snd].
    pose proof (miss_step config t addr host port msg w r Haddr Hr) as Hstep.
    destruct (miss_row_no_transition config t r) as [Hst' Hos'].
    { rewrite Hst. cbn. by rewrite andb_false_r. }
    destruct (IH _ _ (m + 1) Hstep) as (r' & Hr' & ? & Hos & Hmc).
    { by rewrite Hst'. }
    { rewrite miss_row_missed_count, Hm. done. }
    exists r'. split; [exact Hr'|]. split; [done|]. split; [by rewrite Hos|].
    rewrite Hmc. do 2 f_equal. cbn [List.length]. lia.
Qed.

Lemma miss_while_offline_keeps_offline_since_witness :
  let r : Row := {[ "status" := Text "offline"; "offline_since" := Time 1000;
                    "missed_count" := Num 3; "seen_count" := Num 0 ]} in
  let w := {| column_defaults := ∅; db := {[ "10.0.0.1:27015" := r ]}; logs := [] |} in
  let jobs := [ (2000, Miss "timeout"); (3000, Miss "timeout") ] in
  ∃ r', db (run Config.defaults "10.0.0.1:27015" jobs w) !! "10.0.0.1:27015" = Some r' ∧
        r' !! "status" = Some (Text "offline") ∧
        r' !! "offline_since" = r !! "offline_since" ∧
        r' !! "missed_count" = Some (Num (3 + Z.of_nat (List.length jobs))).
Proof.
  intros r w jobs.
  apply (miss_while_offline_keeps_offline_since
           Config.defaults "10.0.0.1:27015" "10.0.0.1" 27015 jobs w r 3).
  - reflexivity.
  - reflexivity.
  - reflexivity.
  - reflexivity.
  - reflexivity.
Defined.

Lemma ge_threshold_online n m status config :
  serverOfflineThreshold config = Some n →
  status = Some (Text "online") →
  ge_threshold (next_missed_count (Some (Num m))) (serverOfflineThreshold config)
  && not_offline status = (n <=? m + 1).
Proof. intros -> ->. cbn. by rewrite andb_true_r. Qed.

(** One failed probe of a server that is online. *)
Lemma miss_online_step config n now addr host port msg w r m :
  serverOfflineThreshold config = Some n →
  parse_addr addr = Some (host, port) →
  db w !! addr = Some r →
  r !! "status" = Some (Text "online") →
  r !! "missed_count" = Some (Num m) →
  ∃ r', db (exec (serverWorker config no_faults now (Miss msg) addr) w) !! addr = Some r' ∧
        r' !! "missed_count" = Some (Num (m + 1)) ∧
        r' !! "seen_count" = Some (Num 0) ∧
        if n <=? m + 1
        then r' !! "status" = Some (Text "offline") ∧
             r' !! "offline_since" = Some (Time now)
        else r' !! "status" = Some (Text "online") ∧
             r' !! "offline_since" = r !! "offline_since".
Proof.
  intros Hn Haddr Hr Hst Hm. exists (miss_row config now r).
  split; [by eapply miss_step|].
  split; [by rewrite miss_row_missed_count, Hm|].
  split; [by rewrite miss_row_seen_count|].
  pose proof (ge_threshold_online n m _ config Hn Hst) as Hc. rewrite <- Hm in Hc.
  destruct (n <=? m + 1).
  - by apply miss_row_transition.
  - destruct (miss_row_no_transition config now r Hc) as [-> ->]. done.
Qed.

(** Failed probes that stay below the threshold leave the server online. *)
Lemma misses_below_threshold config n addr host port jobs w r m :
  serverOfflineThreshold config = Some n →
  parse_addr addr = Some (host, port) →
  db w !! addr = Some r →
  r !! "status" = Some (Text "online") →
  r !! "missed_count" = Some (Num m) →
  all_miss jobs →
  m + Z.of_nat (List.length jobs) < n →
  ∃ r', db (run config addr jobs w) !! addr = Some r' ∧
        r' !! "status" = Some (Text "online") ∧
        r' !! "offline_since" = r !! "offline_since" ∧
        r' !! "missed_count" = Some (Num (m + Z.of_nat (List.length jobs))).
Proof.
  intros Hn Haddr Hr Hst Hm Hall Hlt. revert w r m Hr Hst Hm Hlt.
  induction jobs as [|[t [serverData|msg]] jobs IH]; intros w r m Hr Hst Hm Hlt;
    try discriminate Hall.
  - exists r. cbn. by rewrite Z.add_0_r.
  - specialize (IH Hall). cbn [run foldl fst snd]. cbn [List.length] in Hlt.
    destruct (miss_online_step config n t addr host port msg w r m Hn Haddr Hr Hst Hm)
      as (r1 & Hr1 & Hm1 & _ & Hcase).
    destruct (Z.leb_spec n (m + 1)) as [?|_]; [lia|].
    destruct Hcase as [Hst1 Hos1].
    destruct (IH _ r1 (m + 1) Hr1 Hst1 Hm1) as (r' & Hr' & ? & Hos & Hmc); [lia|].
    exists r'. split; [exact Hr'|]. split; [done|]. split; [by rewrite Hos|].
    rewrite Hmc. do 2 f_equal. cbn [List.length]. lia.
Qed.

(** C3: with a threshold [n] of at least one, a server that is online with
    no missed probe goes offline at the [n]-th consecutive failed probe and
    not before: every failed probe adds one to [missed_count] and sets
    [seen_count] to 0, the status turns offline (and [offline_since] is set to
    the clock of that job) exactly when [missed_count] reaches [n], and
    [n - 1] failed probes followed by a successful one leave the server
    online with [missed_count] 0. *)
Theorem offline_after_threshold_misses config n addr host port :
  serverOfflineThreshold config = Some n →
  1 ≤ n →
  parse_addr addr = Some (host, port) →
  (∀ now msg w r m,
      db w !! addr = Some r →
      r !! "status" = Some (Text "online") →
      r !! "missed_count" = Some (Num m) →
      ∃ r', db (exec (serverWorker config no_faults now (Miss msg) addr) w) !! addr
            = Some r' ∧
            r' !! "missed_count" = Some (Num (m + 1)) ∧
            r' !! "seen_count" = Some (Num 0) ∧
            if n <=? m + 1
            then r' !! "status" = Some (Text "offline") ∧
                 r' !! "offline_since" = Some (Time now)
            else r' !! "status" = Some (Text "online") ∧
                 r' !! "offline_since" = r !! "offline_since") ∧
  (∀ jobs w r,
      db w !! addr = Some r →
      r !! "status" = Some (Text "online") →
      r !! "missed_count" = Some (Num 0) →
      all_miss jobs →
      Z.of_nat (List.length jobs) ≤ n →
      ∃ r', db (run config addr jobs w) !! addr = Some r' ∧
            r' !! "missed_count" = Some (Num (Z.of_nat (List.length jobs))) ∧
            if Z.of_nat (List.length jobs) <? n
            then r' !! "status" = Some (Text "online") ∧
                 r' !! "offline_since" = r !! "offline_since"
            else r' !! "status" = Some (Text "offline") ∧
                 ∃ j, last jobs = Some j ∧ r' !! "offline_since" = Some (Time j.1)) ∧
  (∀ jobs now serverData w r,
      db w !! addr = Some r →
      r !! "status" = Some (Text "online") →
      r !! "missed_count" = Some (Num 0) →
      all_miss jobs →
      Z.of_nat (List.length jobs) = n - 1 →
      ∃ r', db (run config addr (jobs ++ [(now, Hit serverData)]) w) !! addr = Some r' ∧
            r' !! "status" = Some (Text "online") ∧
            r' !! "missed_count" = Some (Num 0)).
Proof.
  intros Hn Hpos Haddr. split; [|split].
  - intros now msg w r m. by apply (miss_online_step config n now addr host port).
  - intros jobs w r Hr Hst Hm Hall Hlen.
    destruct (Z.ltb_spec (Z.of_nat (List.length jobs)) n) as [Hlt|Hge].
    + destruct (misses_below_threshold config n addr host port jobs w r 0
                  Hn Haddr Hr Hst Hm Hall) as (r' & Hr' & ? & ? & Hmc); [lia|].
      exists r'. rewrite Z.add_0_l in Hmc. done.
    + destruct jobs as [|j0 jobs0] using rev_ind; [cbn in Hge; lia|]. clear IHjobs0.
      rename jobs0 into jobs, j0 into j.
      unfold all_miss in Hall. rewrite forallb_app in Hall.
      apply andb_true_iff in Hall as [Hall Hj].
      rewrite length_app in Hlen, Hge |- *. cbn [List.length] in Hlen, Hge |- *.
      destruct (misses_below_threshold config n addr host port jobs w r 0
                  Hn Haddr Hr Hst Hm Hall) as (r1 & Hr1 & Hst1 & _ & Hm1); [lia|].
      rewrite run_snoc. destruct j as [t [serverData|msg]]; [discriminate Hj|].
      cbn [fst snd].
      destruct (miss_online_step config n t addr host port msg _ r1 _
                  Hn Haddr Hr1 Hst1 Hm1) as (r' & Hr' & Hmc & _ & Hcase).
      destruct (Z.leb_spec n (0 + Z.of_nat (List.length jobs) + 1)) as [_|?]; [|lia].
      destruct Hcase as [Hst' Hos']. exists r'. split; [exact Hr'|]. split.
      { rewrite Hmc. do 2 f_equal. lia. }
      split; [done|]. exists (t, Miss msg). split; [by rewrite last_snoc|done].
  - intros jobs now serverData w r Hr Hst Hm Hall Hlen.
    rewrite run_snoc. cbn [fst snd].
    rewrite (hit_step config now addr host port serverData _ Haddr).
    eexists. split; [reflexivity|].
    split; [apply hit_row_status|apply hit_row_missed_count].
Qed.

Lemma offline_after_threshold_misses_witness :
  let r : Row := {[ "status" := Text "online"; "missed_count" := Num 0;
                    "seen_count" := Num 4 ]} in
  let w := {| column_defaults := ∅; db := {[ "10.0.0.1:27015" := r ]}; logs := [] |} in
  let jobs := [ (1000, Miss "timeout"); (2000, Miss "timeout"); (3000, Miss "refused") ] in
  ∃ r', db (run Config.defaults "10.0.0.1:27015" jobs w) !! "10.0.0.1:27015" = Some r' ∧
        r' !! "missed_count" = Some (Num 3) ∧
        r' !! "status" = Some (Text "offline") ∧
        ∃ j, last jobs = Some j ∧ r' !! "offline_since" = Some (Time j.1).
Proof.
  intros r w jobs.
  destruct (offline_after_threshold_misses
              Config.defaults 3 "10.0.0.1:27015" "10.0.0.1" 27015)
    as (_ & Hseq & _).
  - reflexivity.
  - lia.
  - reflexivity.
  - apply (Hseq jobs w r).
    + reflexivity.
    + reflexivity.
    + reflexivity.
    + reflexivity.
    + vm_compute. discriminate.
Defined.

(** ** The clean-up job *)
Lemma cleanup_db config tz now cutoff w :
  cutoff_date tz now (serverDeleteThresholdDays config) = Some cutoff →
  db (exec (cleanupWorker config tz no_faults now) w)
  = filter (fun kv => ¬ offline_before cutoff kv.2 = true) (db w).
Proof. intros Hc. unfold cleanupWorker. rewrite Hc. reflexivity. Qed.

Lemma cleanup_db_invalid config tz now flt w :
  cutoff_date tz now (serverDeleteThresholdDays config) = None →
  db (exec (cleanupWorker config tz flt now) w) = db w.
Proof. intros Hc. unfold cleanupWorker. rewrite Hc. reflexivity. Qed.

Lemma reachable_table_ok w : Reachable w → table_ok w.
Proof.
  induction 1 as [defaults l|w config now probe addr _ IH|w config tz now _ IH].
  - intros a r Hr. cbn in Hr. by rewrite lookup_empty in Hr.
  - intros a r. destruct (decide (a = addr)) as [->|Hne].
    + destruct (parse_addr addr) as [[host port]|] eqn:Haddr.
      * destruct probe as [serverData|msg].
        -- rewrite (hit_step _ _ _ _ _ _ _ Haddr). intros [= <-].
           split; [done|]. rewrite hit_row_status. discriminate.
        -- destruct (db w !! addr) as [r0|] eqn:Hr0.
           ++ rewrite (miss_step _ _ _ _ _ _ _ _ Haddr Hr0). intros [= <-].
              split; [done|]. intros _. apply miss_row_seen_count.
           ++ rewrite (miss_db_absent _ _ _ _ _ Haddr _ _ Hr0), Hr0. discriminate.
      * rewrite serverWorker_refused by done. intros Hr.
        destruct (IH addr r Hr) as [[? ?] _]. congruence.
    + rewrite serverWorker_other by done. exact (IH a r).
  - intros a r.
    destruct (cutoff_date tz now (serverDeleteThresholdDays config)) as [cutoff|] eqn:Hc.
    + rewrite (cleanup_db _ _ _ _ _ Hc). intros [Hr _]%map_lookup_filter_Some.
      by apply IH.
    + rewrite cleanup_db_invalid by done. exact (IH a r).
Qed.

(** C4: a successful probe of a server that is offline (in a table the
    worker built) turns it online, clears [offline_since], resets
    [missed_count] to 0 and leaves [seen_count] at 1. *)
Theorem hit_on_offline_record config now addr serverData w r :
  Reachable w →
  db w !! addr = Some r →
  r !! "status" = Some (Text "offline") →
  ∃ r', db (exec (serverWorker config no_faults now (Hit serverData) addr) w) !! addr
        = Some r' ∧
        r' !! "status" = Some (Text "online") ∧
        r' !! "offline_since" = Some Null ∧
        r' !! "missed_count" = Some (Num 0) ∧
        r' !! "seen_count" = Some (Num 1).
Proof.
  intros Hreach Hr Hst.
  destruct (reachable_table_ok w Hreach addr r Hr) as [[[host port] Haddr] Hseen].
  rewrite (hit_step config now addr host port serverData w Haddr), Hr.
  eexists. split; [reflexivity|].
  split; [apply hit_row_status|].
  split; [apply hit_row_offline_since|].
  split; [apply hit_row_missed_count|].
  apply (hit_row_seen_count now addr host port serverData r 0). by apply Hseen.
Qed.

Lemma hit_on_offline_record_witness :
  let a := "10.0.0.1:27015" in
  let serverData :=
    {| sd_name := Some "Casual"; sd_map := Some "de_dust2"; sd_password := None;
       sd_raw := None; sd_players := []; sd_maxplayers := 10; sd_bots := None;
       sd_ping := 20; sd_connect := None; sd_queryPort := None |} in
  let w0 := {| column_defaults := {[ "seen_count" := Num 0 ]}; db := ∅; logs := [] |} in
  let w :=
    exec (serverWorker Config.defaults no_faults 4000 (Miss "timeout") a)
      (exec (serverWorker Config.defaults no_faults 3000 (Miss "timeout") a)
         (exec (serverWorker Config.defaults no_faults 2000 (Miss "timeout") a)
            (exec (serverWorker Config.defaults no_faults 1000 (Hit serverData) a) w0))) in
  ∃ r', db (exec (serverWorker Config.defaults no_faults 5000 (Hit serverData) a) w) !! a
        = Some r' ∧
        r' !! "status" = Some (Text "online") ∧
        r' !! "offline_since" = Some Null ∧
        r' !! "missed_count" = Some (Num 0) ∧
        r' !! "seen_count" = Some (Num 1).
Proof.
  intros a serverData w0 w.
  eapply (hit_on_offline_record Config.defaults 5000 a serverData w).
  - repeat constructor.
  - reflexivity.
  - reflexivity.
Defined.

(** C6: after a job for an address the worker accepts, none of whose
    database calls failed, the two counters of that address's row exclude
    each other: one of them is 0 whenever the other is positive. *)
Theorem counters_exclude_each_other config now probe addr host port w r' :
  parse_addr addr = Some (host, port) →
  db (exec (serverWorker config no_faults now probe addr) w) !! addr = Some r' →
  (∀ s, r' !! "seen_count" = Some (Num s) → 0 < s →
        r' !! "missed_count" = Some (Num 0)) ∧
  (∀ m, r' !! "missed_count" = Some (Num m) → 0 < m →
        r' !! "seen_count" = Some (Num 0)).
Proof.
  intros Haddr. destruct probe as [serverData|msg].
  - rewrite (hit_step config now addr host port serverData w Haddr). intros [= <-].
    split.
    + intros _ _ _. apply hit_row_missed_count.
    + intros m. rewrite hit_row_missed_count. intros [= <-]. lia.
  - destruct (db w !! addr) as [r|] eqn:Hr.
    + rewrite (miss_step config now addr host port msg w r Haddr Hr). intros [= <-].
      split.
      * intros s. rewrite miss_row_seen_count. intros [= <-]. lia.
      * intros _ _ _. apply miss_row_seen_count.
    + rewrite (miss_db_absent _ _ _ _ _ Haddr _ _ Hr), Hr. discriminate.
Qed.

Lemma counters_exclude_each_other_witness :
  let a := "10.0.0.1:27015" in
  let r : Row := {[ "status" := Text "online"; "missed_count" := Num 0;
                    "seen_count" := Num 4; "updated_at" := Time 10 ]} in
  let w := {| column_defaults := ∅; db := {[ a := r ]}; logs := [] |} in
  let r' : Row := {[ "status" := Text "online"; "missed_count" := Num 1;
                     "seen_count" := Num 0; "updated_at" := Time 1000 ]} in
  (∀ s, r' !! "seen_count" = Some (Num s) → 0 < s →
        r' !! "missed_count" = Some (Num 0)) ∧
  (∀ m, r' !! "missed_count" = Some (Num m) → 0 < m →
        r' !! "seen_count" = Some (Num 0)).
Proof.
  intros a r w r'.
  apply (counters_exclude_each_other
           Config.defaults 1000 (Miss "timeout") a "10.0.0.1" 27015 w r').
  - reflexivity.
  - reflexivity.
Defined.







(** ** Which rows the clean-up job deletes *)
Lemma offline_before_true cutoff (r : Row) :
  offline_before cutoff r = true ↔
  r !! "status" = Some (Text "offline") ∧
  ∃ t, r !! "offline_since" = Some (Time t) ∧ t < cutoff.
Proof.
  unfold offline_before. split.
  - destruct (r !! "status") as [[|s| | |]|]; try discriminate.
    destruct (r !! "offline_since") as [[| | | |t]|]; try discriminate.
    intros [Hs Ht]%andb_true_iff. apply String.eqb_eq in Hs as ->.
    apply Z.ltb_lt in Ht. eauto.
  - intros [-> (t & -> & Ht)]. cbn. by apply Z.ltb_lt.
Qed.

(** What [setDate(getDate() - days)] comes to: the same time of day in
    local time, [days] calendar days earlier, taken back to UTC. *)
Lemma setDate_getDate_minus tz now days :
  setDate tz now (Some (getDate tz now - days))
  = TimeClip (UTC tz (LocalTime tz now - days * ms_per_day)).
Proof.
  unfold setDate, getDate, MakeDate, MakeDay_in_month_of, Day, TimeWithinDay.
  do 2 f_equal.
  pose proof (Z.div_mod (LocalTime tz now) ms_per_day) as Hdm.
  assert (ms_per_day ≠ 0) as Hne by (unfold ms_per_day; lia).
  specialize (Hdm Hne). nia.
Qed.

Lemma cleanup_count config tz now cutoff w :
  cutoff_date tz now (serverDeleteThresholdDays config) = Some cutoff →
  result (cleanupWorker config tz no_faults now) w
  = Normal (Z.of_nat (size (filter (fun kv => offline_before cutoff kv.2 = true) (db w)))).
Proof. intros Hc. unfold cleanupWorker. rewrite Hc. reflexivity. Qed.

(** C2, as the code has it: the job deletes a row if and only if its status
    is offline and its [offline_since] lies strictly before the cut-off;
    rows it keeps are not changed, absent rows stay absent, and it returns
    the number of rows deleted.  The cut-off is the clock of the job moved
    back by the configured number of calendar days in the local time of the
    process; in a time zone whose offset from UTC never changes this is the
    clock less that many times 24 hours, so that a row is deleted when it
    has been offline for strictly more than the configured number of days,
    and kept when for exactly that long. *)
Theorem cleanup_deletes_iff config tz days now cutoff w :
  serverDeleteThresholdDays config = Some days →
  cutoff_date tz now (Some days) = Some cutoff →
  let w' := exec (cleanupWorker config tz no_faults now) w in
  (∀ a r, db w !! a = Some r →
          (db w' !! a = None ↔
           r !! "status" = Some (Text "offline") ∧
           ∃ t, r !! "offline_since" = Some (Time t) ∧ t < cutoff)) ∧
  (∀ a r, db w' !! a = Some r → db w !! a = Some r) ∧
  (∀ a, db w !! a = None → db w' !! a = None) ∧
  result (cleanupWorker config tz no_faults now) w
  = Normal (Z.of_nat (size (db w)) - Z.of_nat (size (db w'))) ∧
  cutoff = UTC tz (LocalTime tz now - days * ms_per_day) ∧
  (∀ o, (∀ t, offset_at_utc tz t = o) → (∀ t, offset_at_local tz t = o) →
        cutoff = now - days * ms_per_day ∧
        ∀ t, t < cutoff ↔ days * ms_per_day < now - t).
Proof.
  intros Hd Hcut w'. subst w'.
  assert (cutoff_date tz now (serverDeleteThresholdDays config) = Some cutoff) as Hc
    by (by rewrite Hd).
  assert (cutoff = UTC tz (LocalTime tz now - days * ms_per_day)) as Hlocal.
  { unfold cutoff_date in Hcut. rewrite setDate_getDate_minus in Hcut.
    unfold TimeClip in Hcut. by destruct (_ <=? _); simplify_eq. }
  rewrite (cleanup_db config tz now cutoff w Hc).
  split; [|split; [|split; [|split; [|split]]]].
  - intros a r Hr. rewrite map_lookup_filter_None. cbn [snd].
    rewrite <- (offline_before_true cutoff r). split.
    + intros [Hno|Hall]; [congruence|].
      destruct (offline_before cutoff r) eqn:Hob; [done|].
      destruct (Hall r Hr). by rewrite Hob.
    + intros Hob. right. intros x Hx. assert (x = r) as -> by congruence. tauto.
  - intros a r [Hr _]%map_lookup_filter_Some. exact Hr.
  - intros a Hno. apply map_lookup_filter_None. by left.
  - rewrite (cleanup_count config tz now cutoff w Hc). f_equal.
    pose proof (map_filter_union_complement
                  (fun kv : string * Row => offline_before cutoff kv.2 = true)
                  (db w)) as Hsplit.
    pose proof (map_size_disj_union _ _
                  (map_disjoint_filter_complement
                     (fun kv : string * Row => offline_before cutoff kv.2 = true)
                     (db w))) as Hsize.
    cbv beta in Hsplit, Hsize. rewrite Hsplit in Hsize. lia.
  - exact Hlocal.
  - intros o Hutc Hloc. rewrite Hlocal. unfold UTC, LocalTime.
    rewrite Hutc, Hloc. split; [lia|]. intros t. lia.
Qed.

Lemma cleanup_deletes_iff_witness :
  let a := "10.0.0.1:27015" in
  let r : Row := {[ "status" := Text "offline"; "offline_since" := Time 0;
                    "missed_count" := Num 3; "seen_count" := Num 0 ]} in
  let w := {| column_defaults := ∅; db := {[ a := r ]}; logs := [] |} in
  let tz := fixed_zone 3600000 in
  let now := 7 * ms_per_day + 1 in
  let cutoff := 1 in
  let w' := exec (cleanupWorker Config.defaults tz no_faults now) w in
  (∀ a r, db w !! a = Some r →
          (db w' !! a = None ↔
           r !! "status" = Some (Text "offline") ∧
           ∃ t, r !! "offline_since" = Some (Time t) ∧ t < cutoff)) ∧
  (∀ a r, db w' !! a = Some r → db w !! a = Some r) ∧
  (∀ a, db w !! a = None → db w' !! a = None) ∧
  result (cleanupWorker Config.defaults tz no_faults now) w
  = Normal (Z.of_nat (size (db w)) - Z.of_nat (size (db w'))) ∧
  cutoff = UTC tz (LocalTime tz now - 7 * ms_per_day) ∧
  (∀ o, (∀ t, offset_at_utc tz t = o) → (∀ t, offset_at_local tz t = o) →
        cutoff = now - 7 * ms_per_day ∧
        ∀ t, t < cutoff ↔ 7 * ms_per_day < now - t).
Proof.
  intros a r w tz now cutoff.
  apply (cleanup_deletes_iff Config.defaults tz 7 now cutoff w).
  - reflexivity.
  - reflexivity.
Defined.

(** C2 as it is stated fails at the boundary: a row that has been offline
    for exactly seven days when the job runs with the default configuration
    (in UTC) meets the stated condition and is kept, and the job reports no
    deletion. *)
Lemma cleanup_keeps_row_at_boundary :
  let a := "10.0.0.1:27015" in
  let r : Row := {[ "status" := Text "offline"; "offline_since" := Time 0;
                    "missed_count" := Num 3; "seen_count" := Num 0 ]} in
  let w := {| column_defaults := ∅; db := {[ a := r ]}; logs := [] |} in
  let now := 7 * ms_per_day in
  serverDeleteThresholdDays Config.defaults = Some 7 ∧
  r !! "status" = Some (Text "offline") ∧
  r !! "offline_since" = Some (Time 0) ∧
  7 * ms_per_day ≤ now - 0 ∧
  db (exec (cleanupWorker Config.defaults (fixed_zone 0) no_faults now) w) !! a = Some r ∧
  result (cleanupWorker Config.defaults (fixed_zone 0) no_faults now) w = Normal 0.
Proof.
  intros a r w now.
  split; [reflexivity|]. split; [reflexivity|]. split; [reflexivity|].
  split; [unfold now, ms_per_day; lia|]. split; reflexivity.
Qed.

(** ** A successful probe whose upsert fails *)

(** C1 does not hold of the code.  The server below is online with two
    missed probes.  Its probe succeeds, the upsert comes back with an error
    and every other call works: the stored procedure still adds one to
    [seen_count], the error is thrown into the [catch] block that handles
    failed probes, and the row ends up offline with [missed_count] 3 and
    [seen_count] 0.  The log has the two entries of a failed probe. *)
Theorem failed_upsert_is_handled_as_failed_probe :
  let a := "10.0.0.1:27015" in
  let r : Row := {[ "addr" := Text a; "status" := Text "online";
                    "offline_since" := Null; "missed_count" := Num 2;
                    "seen_count" := Num 0; "updated_at" := Time 1000 ]} in
  let w := {| column_defaults := ∅; db := {[ a := r ]}; logs := [] |} in
  let serverData :=
    {| sd_name := Some "Casual"; sd_map := Some "de_dust2"; sd_password := None;
       sd_raw := None; sd_players := []; sd_maxplayers := 10; sd_bots := None;
       sd_ping := 20; sd_connect := None; sd_queryPort := None |} in
  let flt := {| upsert_fails := true; rpc_fails := false; select_fails := false;
                update_fails := false; delete_fails := false |} in
  let job := serverWorker Config.defaults flt 5000 (Hit serverData) a in
  result job w = Normal None ∧
  db (exec job w) !! a
  = Some {[ "addr" := Text a; "status" := Text "offline";
            "offline_since" := Time 5000; "missed_count" := Num 3;
            "seen_count" := Num 0; "updated_at" := Time 5000 ]} ∧
  db (exec job w) !! a ≠ db w !! a ∧
  logs (exec job w)
  = [ {| level := DEBUG; message := "Failed to query server"; log_addr := Some a |};
      {| level := INFO; message := "Marking server as offline"; log_addr := Some a |} ].
Proof.
  intros a r w serverData flt job.
  split; [reflexivity|]. split; [reflexivity|]. split; [|reflexivity].
  intros Heq.
  assert (db (exec job w) !! a ≫= (fun row => row !! "missed_count")
          = db w !! a ≫= (fun row => row !! "missed_count")) as Hm
    by (by rewrite Heq).
  vm_compute in Hm. discriminate Hm.
Qed.

(** ** The gamemode detector *)

(** C8 does not hold of the code: the name and the map are put in lower
    case, the tags are matched as they arrive.  A tag [SURF], in an array or
    in a comma-separated string, does not make a surf server, while [surf]
    does. *)
Theorem tags_are_matched_as_they_arrive :
  let answer tags :=
    {| sd_name := Some "Community Server"; sd_map := Some "de_dust2";
       sd_password := None;
       sd_raw := Some {| raw_steamid := None; raw_secure := None;
                         raw_version := None; raw_tags := tags |};
       sd_players := []; sd_maxplayers := 10; sd_bots := None; sd_ping := 20;
       sd_connect := None; sd_queryPort := None |} in
  tags_of (answer (TagsArray ["SURF"; "Secure"])) = ["SURF"; "Secure"] ∧
  tags_of (answer (TagsString "SURF,Secure")) = ["SURF"; "Secure"] ∧
  detectGamemode (answer (TagsArray ["SURF"; "Secure"])) = "public" ∧
  detectGamemode (answer (TagsString "SURF,Secure")) = "public" ∧
  detectGamemode (answer (TagsArray ["surf"; "secure"])) = "surf" ∧
  detectGamemode (answer (TagsString "surf,secure")) = "surf" ∧
  detectGamemode
    {| sd_name := Some "SURF Server"; sd_map := Some "de_dust2"; sd_password := None;
       sd_raw := None; sd_players := []; sd_maxplayers := 10; sd_bots := None;
       sd_ping := 20; sd_connect := None; sd_queryPort := None |} = "surf".
Proof. vm_compute. repeat split. Qed.

Lemma some_false {A} (l : list A) : some (fun _ => false) l = false.
Proof. induction l; [done|]. cbn. done. Qed.

Lemma detectGamemode_classify serverData :
  detectGamemode serverData = classify serverData.
Proof.
  unfold detectGamemode, classify.
  cbn [first_match rules]. unfold rule_matches. cbn [gamemode on_map_name on_tag].
  by rewrite some_false, orb_false_r.
Qed.

Lemma no_matching_tag_first_match map name tags :
  no_matching_tag tags →
  first_match rules map name tags
  = first_match rules map name [].
Proof.
  unfold no_matching_tag. cbn [forallb rules on_tag].
  rewrite !andb_true_iff, !negb_true_iff.
  intros (H1 & H2 & H3 & H4 & H5 & H6 & H7 & H8 & H9 & H10 & H11 & H12 & H13 & _).
  cbn [first_match rules]. unfold rule_matches. cbn [gamemode on_map_name on_tag].
  rewrite H1, H2, H3, H4, H5, H6, H7, H8, H9, H10, H11, H12, H13.
  reflexivity.
Qed.

(** C9: the detector is the first-match walk over the rules in their fixed
    order, ending in [public]; a server on the map [surf_kitsune] is a surf
    server; the server named "Best AWP 1v1 Server" on [aim_arena] is an awp
    server although the aim rule matches it too, the awp rule coming first;
    and "casual pub" on [de_dust2] is public (in the last two, with tags
    that no rule matches). *)
Theorem detector_first_match_scenarios :
  (∀ serverData, detectGamemode serverData = classify serverData) ∧
  (∀ serverData,
      sd_map serverData = Some "surf_kitsune" →
      detectGamemode serverData = "surf") ∧
  (∀ serverData,
      sd_name serverData = Some "Best AWP 1v1 Server" →
      sd_map serverData = Some "aim_arena" →
      no_matching_tag (tags_of serverData) →
      detectGamemode serverData = "awp" ∧
      ∃ awp aim, rules !! 6%nat = Some awp ∧ rules !! 7%nat = Some aim ∧
                 gamemode awp = "awp" ∧ gamemode aim = "aim" ∧
                 rule_matches awp "aim_arena" "best awp 1v1 server" [] = true ∧
                 rule_matches aim "aim_arena" "best awp 1v1 server" [] = true) ∧
  (∀ serverData,
      sd_name serverData = Some "casual pub" →
      sd_map serverData = Some "de_dust2" →
      no_matching_tag (tags_of serverData) →
      detectGamemode serverData = "public").
Proof.
  split; [exact detectGamemode_classify|]. split; [|split].
  - intros serverData Hmap. unfold detectGamemode. rewrite Hmap. reflexivity.
  - intros serverData Hname Hmap Htags. split.
    + rewrite detectGamemode_classify. unfold classify. rewrite Hname, Hmap.
      rewrite (no_matching_tag_first_match _ _ _ Htags). reflexivity.
    + eexists _, _. repeat split.
  - intros serverData Hname Hmap Htags.
    rewrite detectGamemode_classify. unfold classify. rewrite Hname, Hmap.
    rewrite (no_matching_tag_first_match _ _ _ Htags). reflexivity.
Qed.

Lemma detector_first_match_scenarios_witness :
  let answer name map tags :=
    {| sd_name := Some name; sd_map := Some map; sd_password := None;
       sd_raw := Some {| raw_steamid := None; raw_secure := None;
                         raw_version := None; raw_tags := tags |};
       sd_players := []; sd_maxplayers := 10; sd_bots := None; sd_ping := 20;
       sd_connect := None; sd_queryPort := None |} in
  detectGamemode (answer "Kitsune 24/7" "surf_kitsune" TagsOther) = "surf" ∧
  detectGamemode (answer "Best AWP 1v1 Server" "aim_arena" (TagsString "secure,eu"))
  = "awp" ∧
  detectGamemode (answer "casual pub" "de_dust2" (TagsArray ["secure"; "eu"]))
  = "public".
Proof.
  intros answer.
  destruct detector_first_match_scenarios as (_ & Hsurf & Hawp & Hpublic).
  split; [|split].
  - apply (Hsurf (answer "Kitsune 24/7" "surf_kitsune" TagsOther)). reflexivity.
  - apply (Hawp (answer "Best AWP 1v1 Server" "aim_arena" (TagsString "secure,eu")));
      reflexivity.
  - apply (Hpublic (answer "casual pub" "de_dust2" (TagsArray ["secure"; "eu"])));
      reflexivity.
Defined.

(** C10: the detector never answers [csurf]: whatever satisfies the
    combat-surf rule satisfies the surf rule, which comes first. *)
Theorem detector_never_csurf serverData :
  detectGamemode serverData ≠ "csurf".
Proof.
  unfold detectGamemode. cbv zeta.
  destruct (startsWith (toLowerCase (or_empty (sd_map serverData))) "surf_");
    [cbn [orb]; discriminate|].
  destruct (includes (toLowerCase (or_empty (sd_name serverData))) "surf");
    [cbn [orb]; discriminate|].
  cbn [orb andb].
  repeat case_match; discriminate.
Qed.

(** * Further properties of the worker *)

(** ** Jobs whose database calls may fail *)

Lemma handle_failure_result config flt now addr e w :
  result (handle_failure config flt now addr e) w = Normal None.
Proof.
  unfold result, handle_failure, try_catch, logger, mbind, M_bind, mret, M_ret.
  unfold select_missed_count_status, update. cbn [db logs column_defaults].
  destruct (select_fails flt); [reflexivity|].
  destruct (db w !! addr) as [r|]; [|reflexivity].
  destruct (ge_threshold _ _ && not_offline _);
    cbn [db]; destruct (update_fails flt); cbn [db];
    destruct (db w !! addr); reflexivity.
Qed.

(** The table after the [catch] block. *)
Lemma handle_failure_db config flt now addr e w :
  db (exec (handle_failure config flt now addr e) w)
  = if select_fails flt || update_fails flt then db w
    else match db w !! addr with
         | Some r => <[addr := miss_row config now r]> (db w)
         | None => db w
         end.
Proof.
  unfold exec, handle_failure, try_catch, logger, mbind, M_bind, mret, M_ret.
  unfold select_missed_count_status, update, miss_row. cbn [db logs column_defaults].
  destruct (select_fails flt); [reflexivity|]. cbn [orb].
  destruct (db w !! addr) as [r|] eqn:Hr; [|by destruct (update_fails flt)].
  destruct (ge_threshold _ _ && not_offline _);
    cbn [db]; destruct (update_fails flt); cbn [db]; rewrite ?Hr; reflexivity.
Qed.

Lemma handle_failure_defaults config flt now addr e w :
  column_defaults (exec (handle_failure config flt now addr e) w) = column_defaults w.
Proof.
  unfold exec, handle_failure, try_catch, logger, mbind, M_bind, mret, M_ret.
  unfold select_missed_count_status, update. cbn [db logs column_defaults].
  destruct (select_fails flt); [reflexivity|].
  destruct (db w !! addr) as [r|]; [|reflexivity].
  destruct (ge_threshold _ _ && not_offline _);
    cbn [db]; destruct (update_fails flt); cbn [db];
    destruct (db w !! addr); reflexivity.
Qed.

Lemma serverWorker_hit_exec config flt now addr host port serverData w :
  parse_addr addr = Some (host, port) →
  serverWorker config flt now (Hit serverData) addr w
  = if upsert_fails flt
    then handle_failure config flt now addr (PostgrestError "upsert failed")
           (after_try flt now addr host port serverData w)
    else (Normal (Some (serverRecord addr host port serverData
                          (detectGamemode serverData) now)),
          after_try flt now addr host port serverData w).
Proof.
  intros Haddr. unfold serverWorker. rewrite Haddr.
  unfold try_catch, Gamedig_query, mbind, M_bind, mret, M_ret, after_try.
  unfold upsert, rpc_increment_server_seen_count, throw.
  cbn [serverRecord prop String.eqb Ascii.eqb Bool.eqb].
  destruct (upsert_fails flt), (rpc_fails flt); cbn [db with_db];
    try destruct (db w !! addr) as [r|] eqn:Hr;
    rewrite ?lookup_insert_eq; reflexivity.
Qed.

Lemma serverWorker_miss_exec config flt now addr host port msg w :
  parse_addr addr = Some (host, port) →
  serverWorker config flt now (Miss msg) addr w
  = handle_failure config flt now addr (QueryError msg) w.
Proof.
  intros Haddr. unfold serverWorker. rewrite Haddr.
  unfold try_catch, Gamedig_query, mbind, M_bind, throw. reflexivity.
Qed.

Lemma handle_failure_other config flt now addr e w a :
  a ≠ addr →
  db (exec (handle_failure config flt now addr e) w) !! a = db w !! a.
Proof.
  intros Hne. rewrite handle_failure_db.
  destruct (select_fails flt || update_fails flt); [done|].
  destruct (db w !! addr); [by rewrite lookup_insert_ne|done].
Qed.

(** The [catch] block neither adds a row nor removes one. *)
Lemma handle_failure_same_rows config flt now addr e w a :
  db (exec (handle_failure config flt now addr e) w) !! a = None ↔ db w !! a = None.
Proof.
  rewrite handle_failure_db.
  destruct (select_fails flt || update_fails flt); [done|].
  destruct (db w !! addr) as [r|] eqn:Hr; [|done].
  destruct (decide (a = addr)) as [->|Hne].
  - rewrite lookup_insert_eq, Hr. done.
  - by rewrite lookup_insert_ne.
Qed.

Lemma after_try_other flt now addr host port serverData w a :
  a ≠ addr →
  db (after_try flt now addr host port serverData w) !! a = db w !! a.
Proof.
  intros Hne. unfold after_try.
  destruct (upsert_fails flt), (rpc_fails flt); cbn [db with_db];
    rewrite ?lookup_insert_eq;
    try destruct (db w !! addr); cbn [db with_db];
    by rewrite ?lookup_insert_ne by done.
Qed.

Lemma after_try_defaults flt now addr host port serverData w :
  column_defaults (after_try flt now addr host port serverData w) = column_defaults w.
Proof.
  unfold after_try.
  destruct (upsert_fails flt), (rpc_fails flt); cbn [db with_db];
    rewrite ?lookup_insert_eq; try destruct (db w !! addr); reflexivity.
Qed.

(** The row of the address after the [try] block of a successful probe. *)
Lemma after_try_row flt now addr host port serverData w :
  db (after_try flt now addr host port serverData w) !! addr
  = if upsert_fails flt
    then (if rpc_fails flt then db w !! addr
          else increment_seen_count <$> db w !! addr)
    else let r := patch (serverRecord addr host port serverData
                           (detectGamemode serverData) now)
                    (match db w !! addr with
                     | Some r => r
                     | None => column_defaults w
                     end) in
         Some (if rpc_fails flt then r else increment_seen_count r).
Proof.
  unfold after_try.
  destruct (upsert_fails flt), (rpc_fails flt); cbn [db with_db];
    rewrite ?lookup_insert_eq; cbn [db with_db]; rewrite ?lookup_insert_eq;
    try reflexivity.
  destruct (db w !! addr) as [r|] eqn:Hr; cbn [db with_db fmap option_fmap option_map];
    rewrite ?lookup_insert_eq; done.
Qed.

(** X1: a [server-query] job never fails, whatever the probe and the
    database calls do: it returns the record it stored when the address is
    accepted, the probe succeeded and the upsert came back without an error,
    and [null] in every other case. *)
Theorem serverWorker_never_throws config flt now probe addr w :
  result (serverWorker config flt now probe addr) w
  = Normal match parse_addr addr, probe with
           | Some (host, port), Hit serverData =>
               if upsert_fails flt then None
               else Some (serverRecord addr host port serverData
                            (detectGamemode serverData) now)
           | _, _ => None
           end.
Proof.
  unfold result. destruct (parse_addr addr) as [[host port]|] eqn:Haddr.
  - destruct probe as [serverData|msg].
    + rewrite (serverWorker_hit_exec _ _ _ _ _ _ _ _ Haddr).
      destruct (upsert_fails flt); [apply handle_failure_result|reflexivity].
    + rewrite (serverWorker_miss_exec _ _ _ _ _ _ _ _ Haddr).
      apply handle_failure_result.
  - unfold serverWorker. rewrite Haddr. by destruct probe.
Qed.

(** X2: a job reads and writes the row of its own address only: every other
    row, and the schema, are as before, whichever database calls fail. *)
Theorem serverWorker_touches_own_row_only config flt now probe addr w :
  (∀ a, a ≠ addr →
        db (exec (serverWorker config flt now probe addr) w) !! a = db w !! a) ∧
  column_defaults (exec (serverWorker config flt now probe addr) w)
  = column_defaults w.
Proof.
  unfold exec. destruct (parse_addr addr) as [[host port]|] eqn:Haddr.
  - destruct probe as [serverData|msg].
    + rewrite (serverWorker_hit_exec _ _ _ _ _ _ _ _ Haddr).
      destruct (upsert_fails flt).
      * split.
        -- intros a Hne.
           pose proof (handle_failure_other config flt now addr
                         (PostgrestError "upsert failed")
                         (after_try flt now addr host port serverData w) a Hne) as H.
           unfold exec in H. rewrite H. by apply after_try_other.
        -- pose proof (handle_failure_defaults config flt now addr
                         (PostgrestError "upsert failed")
                         (after_try flt now addr host port serverData w)) as H.
           unfold exec in H. rewrite H. apply after_try_defaults.
      * split; [intros a Hne; by apply after_try_other|apply after_try_defaults].
    + rewrite (serverWorker_miss_exec _ _ _ _ _ _ _ _ Haddr). split.
      * intros a Hne. by apply handle_failure_other.
      * apply handle_failure_defaults.
  - unfold serverWorker. rewrite Haddr. split; reflexivity.
Qed.

(** X3: a job never removes a row, and a row appears only under the job's
    own address, when that address is accepted, the probe succeeded and the
    upsert did not fail; a failed probe never creates a row. *)
Theorem rows_appear_only_by_successful_probe config flt now probe addr w :
  let w' := exec (serverWorker config flt now probe addr) w in
  (∀ a, is_Some (db w !! a) → is_Some (db w' !! a)) ∧
  (∀ a, db w !! a = None → is_Some (db w' !! a) →
        a = addr ∧ is_Some (parse_addr addr) ∧
        (∃ serverData, probe = Hit serverData) ∧ upsert_fails flt = false).
Proof.
  intros w'. subst w'. unfold exec.
  destruct (parse_addr addr) as [[host port]|] eqn:Haddr.
  - destruct probe as [serverData|msg].
    + rewrite (serverWorker_hit_exec _ _ _ _ _ _ _ _ Haddr).
      pose proof (after_try_row flt now addr host port serverData w) as Hrow.
      pose proof (after_try_other flt now addr host port serverData w) as Hother.
      destruct (upsert_fails flt) eqn:Hup.
      * pose proof (handle_failure_same_rows config flt now addr
                      (PostgrestError "upsert failed")
                      (after_try flt now addr host port serverData w)) as Hsame.
        unfold exec in Hsame.
        assert (∀ a, db (after_try flt now addr host port serverData w) !! a = None
                     ↔ db w !! a = None) as Htry.
        { intros a. destruct (decide (a = addr)) as [->|Hne].
          - rewrite Hrow. destruct (rpc_fails flt); [done|].
            by destruct (db w !! addr).
          - by rewrite Hother. }
        split.
        -- intros a Ha. apply not_eq_None_Some. rewrite Hsame, Htry.
           by apply not_eq_None_Some.
        -- intros a Hno Hyes. apply not_eq_None_Some in Hyes.
           destruct Hyes. rewrite Hsame, Htry. done.
      * split.
        -- intros a Ha. cbn [snd]. destruct (decide (a = addr)) as [->|Hne].
           ++ rewrite Hrow. done.
           ++ by rewrite Hother.
        -- intros a Hno Hyes. cbn [snd] in Hyes.
           destruct (decide (a = addr)) as [->|Hne].
           ++ split; [done|]. split; [done|]. split; [by eexists|done].
           ++ rewrite Hother, Hno in Hyes by done. by destruct Hyes.
    + rewrite (serverWorker_miss_exec _ _ _ _ _ _ _ _ Haddr).
      pose proof (handle_failure_same_rows config flt now addr (QueryError msg) w)
        as Hsame.
      unfold exec in Hsame. split.
      * intros a Ha. apply not_eq_None_Some. rewrite Hsame. by apply not_eq_None_Some.
      * intros a Hno Hyes. apply not_eq_None_Some in Hyes. destruct Hyes.
        by rewrite Hsame.
  - pose proof (serverWorker_refused config flt now probe addr w Haddr) as Href.
    unfold exec in Href. rewrite Href. split; [done|].
    intros a Hno Hyes. rewrite Hno in Hyes. by destruct Hyes.
Qed.

Lemma patch_lookup_notin body (r : Row) c :
  c ∉ body.*1 → patch body r !! c = r !! c.
Proof.
  induction body as [|[k v] body IH]; [done|].
  cbn [fmap list_fmap fst]. rewrite not_elem_of_cons. intros [Hne Hnotin].
  rewrite patch_cons_ne by done. by apply IH.
Qed.

(** X4: the first successful probe of an address inserts its row: the
    columns of the record as sent, the status online with no missed probe,
    the schema's default in every column the record leaves out, and
    [seen_count] one above its default. *)
Theorem first_sighting_inserts_row config now addr host port serverData w :
  parse_addr addr = Some (host, port) →
  db w !! addr = None →
  ∃ r, db (exec (serverWorker config no_faults now (Hit serverData) addr) w) !! addr
       = Some r ∧
       r !! "addr" = Some (Text addr) ∧
       r !! "ip" = Some (Text host) ∧
       r !! "gamemode" = Some (Text (detectGamemode serverData)) ∧
       r !! "status" = Some (Text "online") ∧
       r !! "offline_since" = Some Null ∧
       r !! "missed_count" = Some (Num 0) ∧
       r !! "updated_at" = Some (Time now) ∧
       (∀ d, column_defaults w !! "seen_count" = Some (Num d) →
             r !! "seen_count" = Some (Num (d + 1))) ∧
       (∀ c, c ∉ (serverRecord addr host port serverData
                    (detectGamemode serverData) now).*1 →
             r !! c = column_defaults w !! c).
Proof.
  intros Haddr Hno.
  rewrite (hit_step config now addr host port serverData w Haddr), Hno.
  eexists. split; [reflexivity|].
  repeat split.
  - unfold hit_row. rewrite increment_seen_count_ne by done.
    unfold serverRecord. by patch_lookup.
  - unfold hit_row. rewrite increment_seen_count_ne by done.
    unfold serverRecord. by patch_lookup.
  - unfold hit_row. rewrite increment_seen_count_ne by done.
    unfold serverRecord. by patch_lookup.
  - apply hit_row_status.
  - apply hit_row_offline_since.
  - apply hit_row_missed_count.
  - apply hit_row_updated_at.
  - intros d Hd. by apply hit_row_seen_count.
  - intros c Hc. unfold hit_row. rewrite increment_seen_count_ne.
    + by apply patch_lookup_notin.
    + intros ->. apply Hc. unfold serverRecord. cbn [fmap list_fmap fst].
      set_solver.
Qed.

Lemma first_sighting_inserts_row_witness :
  let a := "10.0.0.1:27015" in
  let serverData :=
    {| sd_name := Some "Kitsune 24/7"; sd_map := Some "surf_kitsune";
       sd_password := None; sd_raw := None; sd_players := [];
       sd_maxplayers := 32; sd_bots := None; sd_ping := 20;
       sd_connect := None; sd_queryPort := None |} in
  let w := {| column_defaults := {[ "seen_count" := Num 0; "region" := Text "eu" ]};
              db := ∅; logs := [] |} in
  ∃ r, db (exec (serverWorker Config.defaults no_faults 1000 (Hit serverData) a) w) !! a
       = Some r ∧
       r !! "addr" = Some (Text a) ∧
       r !! "ip" = Some (Text "10.0.0.1") ∧
       r !! "gamemode" = Some (Text (detectGamemode serverData)) ∧
       r !! "status" = Some (Text "online") ∧
       r !! "offline_since" = Some Null ∧
       r !! "missed_count" = Some (Num 0) ∧
       r !! "updated_at" = Some (Time 1000) ∧
       (∀ d, column_defaults w !! "seen_count" = Some (Num d) →
             r !! "seen_count" = Some (Num (d + 1))) ∧
       (∀ c, c ∉ (serverRecord a "10.0.0.1" 27015 serverData
                    (detectGamemode serverData) 1000).*1 →
             r !! c = column_defaults w !! c).
Proof.
  intros a serverData w.
  apply (first_sighting_inserts_row
           Config.defaults 1000 a "10.0.0.1" 27015 serverData w).
  - reflexivity.
  - reflexivity.
Defined.

(** X5: when, after a failed probe, the read of the row or its update comes
    back with an error, the table is left as it was.  For a failing update
    the log ends with the error entry, after the entry "Marking server as
    offline" when the threshold was reached: that entry is written before
    the update is tried. *)
Theorem failed_probe_with_failing_store config flt now addr host port msg w r :
  parse_addr addr = Some (host, port) →
  db w !! addr = Some r →
  select_fails flt = true ∨ update_fails flt = true →
  let job := serverWorker config flt now (Miss msg) addr in
  db (exec job w) = db w ∧
  (select_fails flt = false →
   logs (exec job w)
   = (logs w
      ++ [ {| level := DEBUG; message := "Failed to query server";
              log_addr := Some addr |} ]
      ++ (if ge_threshold (next_missed_count (r !! "missed_count"))
               (serverOfflineThreshold config) && not_offline (r !! "status")
          then [ {| level := INFO; message := "Marking server as offline";
                    log_addr := Some addr |} ]
          else [])
      ++ [ {| level := ERROR; message := "Failed to update server offline status";
              log_addr := Some addr |} ])%list).
Proof.
  intros Haddr Hr Hflt job. subst job. unfold exec.
  rewrite (serverWorker_miss_exec _ _ _ _ _ _ _ _ Haddr). split.
  - pose proof (handle_failure_db config flt now addr (QueryError msg) w) as Hdb.
    unfold exec in Hdb. rewrite Hdb.
    destruct Hflt as [-> | ->]; [done|]. by rewrite orb_true_r.
  - intros Hsel. destruct Hflt as [Hflt|Hup]; [congruence|].
    unfold handle_failure, try_catch, logger, mbind, M_bind, mret, M_ret.
    unfold select_missed_count_status, update. cbn [db logs column_defaults].
    rewrite Hsel, Hr.
    destruct (ge_threshold _ _ && not_offline _);
      cbn [db logs column_defaults]; rewrite Hup; cbn [snd logs];
      by rewrite <- ?app_assoc.
Qed.

Lemma failed_probe_with_failing_store_witness :
  let a := "10.0.0.1:27015" in
  let r : Row := {[ "status" := Text "online"; "missed_count" := Num 2;
                    "seen_count" := Num 0 ]} in
  let w := {| column_defaults := ∅; db := {[ a := r ]}; logs := [] |} in
  let flt := {| upsert_fails := false; rpc_fails := false; select_fails := false;
                update_fails := true; delete_fails := false |} in
  let job := serverWorker Config.defaults flt 5000 (Miss "timeout") a in
  db (exec job w) = db w ∧
  (select_fails flt = false →
   logs (exec job w)
   = (logs w
      ++ [ {| level := DEBUG; message := "Failed to query server";
              log_addr := Some a |} ]
      ++ (if ge_threshold (next_missed_count (r !! "missed_count"))
               (serverOfflineThreshold Config.defaults) && not_offline (r !! "status")
          then [ {| level := INFO; message := "Marking server as offline";
                    log_addr := Some a |} ]
          else [])
      ++ [ {| level := ERROR; message := "Failed to update server offline status";
              log_addr := Some a |} ])%list).
Proof.
  intros a r w flt.
  apply (failed_probe_with_failing_store
           Config.defaults flt 5000 a "10.0.0.1" 27015 "timeout" w r).
  - reflexivity.
  - reflexivity.
  - right. reflexivity.
Defined.

(** ** What holds of every row of a table the worker built *)

Lemma miss_row_other_column config now (r : Row) c :
  c ≠ "missed_count" → c ≠ "updated_at" → c ≠ "seen_count" →
  c ≠ "status" → c ≠ "offline_since" →
  miss_row config now r !! c = r !! c.
Proof.
  intros. unfold miss_row.
  destruct (ge_threshold _ _ && not_offline _); cbn [app]; by patch_lookup.
Qed.

Lemma hit_row_ok now addr host port serverData old :
  parse_addr addr = Some (host, port) →
  row_ok addr (hit_row now addr host port serverData old).
Proof.
  intros Haddr. unfold row_ok.
  rewrite hit_row_status, hit_row_offline_since, hit_row_missed_count.
  split; [|split; [|split; [|split]]].
  - exists host, port. split; [done|].
    unfold hit_row. rewrite increment_seen_count_ne by done.
    unfold serverRecord. by patch_lookup.
  - unfold hit_row. rewrite increment_seen_count_ne by done.
    unfold serverRecord. by patch_lookup.
  - by left.
  - exists 0. split; [done|]. split; [lia|]. discriminate.
  - by left.
Qed.

Lemma miss_row_ok config now a r :
  row_ok a r → row_ok a (miss_row config now r).
Proof.
  intros ((host & port & Haddr & Hip) & Hkey & Hst & (m & Hm & Hpos & Hoff) & _).
  unfold row_ok.
  rewrite miss_row_missed_count, miss_row_seen_count, Hm.
  rewrite !(miss_row_other_column config now r "ip") by done.
  rewrite !(miss_row_other_column config now r "addr") by done.
  split; [by exists host, port|]. split; [done|].
  destruct (ge_threshold (next_missed_count (r !! "missed_count"))
              (serverOfflineThreshold config) && not_offline (r !! "status")) eqn:Hc.
  - destruct (miss_row_transition config now r Hc) as [-> ->].
    split; [right; eauto|]. split; [|by right].
    exists (m + 1). split; [done|]. split; lia.
  - destruct (miss_row_no_transition config now r Hc) as [-> ->].
    split; [done|]. split; [|by right].
    exists (m + 1). split; [done|]. split; lia.
Qed.

Lemma reachable_rows_ok w :
  Reachable w → ∀ a r, db w !! a = Some r → row_ok a r.
Proof.
  induction 1 as [defaults l|w config now probe addr _ IH|w config tz now _ IH];
    intros a r.
  - cbn. by rewrite lookup_empty.
  - destruct (decide (a = addr)) as [->|Hne].
    + destruct (parse_addr addr) as [[host port]|] eqn:Haddr.
      * destruct probe as [serverData|msg].
        -- rewrite (hit_step _ _ _ _ _ _ _ Haddr). intros [= <-].
           by apply hit_row_ok.
        -- destruct (db w !! addr) as [r0|] eqn:Hr0.
           ++ rewrite (miss_step _ _ _ _ _ _ _ _ Haddr Hr0). intros [= <-].
              apply miss_row_ok. by apply IH.
           ++ rewrite (miss_db_absent _ _ _ _ _ Haddr _ _ Hr0), Hr0. discriminate.
      * rewrite serverWorker_refused by done. apply IH.
    + rewrite serverWorker_other by done. apply IH.
  - destruct (cutoff_date tz now (serverDeleteThresholdDays config)) as [cutoff|] eqn:Hc.
    + rewrite (cleanup_db _ _ _ _ _ Hc). intros [Hr _]%map_lookup_filter_Some.
      by apply IH.
    + rewrite cleanup_db_invalid by done. apply IH.
Qed.

(** X6: in every table the workers build, a row is online with
    [offline_since] null or offline with [offline_since] a time stamp, and
    nothing else. *)
Theorem status_and_offline_since_agree w a r :
  Reachable w →
  db w !! a = Some r →
  (r !! "status" = Some (Text "online") ∨ r !! "status" = Some (Text "offline")) ∧
  (r !! "status" = Some (Text "online") ↔ r !! "offline_since" = Some Null) ∧
  (r !! "status" = Some (Text "offline") ↔ ∃ t, r !! "offline_since" = Some (Time t)).
Proof.
  intros Hreach Hr.
  destruct (reachable_rows_ok w Hreach a r Hr)
    as (_ & _ & [[Hst Hos]|[Hst (t & Hos)]] & _); rewrite Hst, Hos.
  - split; [by left|]. split; [done|]. split; [discriminate|].
    intros (t & Ht). discriminate.
  - split; [by right|]. split; [split; discriminate|]. split; [eauto|done].
Qed.

(** X7: in every table the workers build, [missed_count] is a number that
    is not negative, a row that is offline has missed at least one probe, and
    one of [missed_count] and [seen_count] is 0. *)
Theorem counters_in_built_tables w a r :
  Reachable w →
  db w !! a = Some r →
  (∃ m, r !! "missed_count" = Some (Num m) ∧ 0 ≤ m ∧
        (r !! "status" = Some (Text "offline") → 1 ≤ m)) ∧
  (r !! "missed_count" = Some (Num 0) ∨ r !! "seen_count" = Some (Num 0)).
Proof.
  intros Hreach Hr.
  destruct (reachable_rows_ok w Hreach a r Hr) as (_ & _ & _ & Hm & Hex). done.
Qed.

(** X8: in every table the workers build, a row is stored under an address
    the worker accepts, its [addr] column is that address and its [ip] column
    the host part of it. *)
Theorem rows_are_keyed_by_their_address w a r :
  Reachable w →
  db w !! a = Some r →
  r !! "addr" = Some (Text a) ∧
  ∃ host port, parse_addr a = Some (host, port) ∧ r !! "ip" = Some (Text host).
Proof.
  intros Hreach Hr.
  destruct (reachable_rows_ok w Hreach a r Hr) as (Hip & Hkey & _). done.
Qed.

Lemma status_and_offline_since_agree_witness :
  let r := row_after_three_misses in
  (r !! "status" = Some (Text "online") ∨ r !! "status" = Some (Text "offline")) ∧
  (r !! "status" = Some (Text "online") ↔ r !! "offline_since" = Some Null) ∧
  (r !! "status" = Some (Text "offline") ↔ ∃ t, r !! "offline_since" = Some (Time t)).
Proof.
  intros r.
  apply (status_and_offline_since_agree table_after_three_misses "10.0.0.1:27015" r).
  - unfold table_after_three_misses. repeat constructor.
  - reflexivity.
Defined.

Lemma counters_in_built_tables_witness :
  let r := row_after_three_misses in
  (∃ m, r !! "missed_count" = Some (Num m) ∧ 0 ≤ m ∧
        (r !! "status" = Some (Text "offline") → 1 ≤ m)) ∧
  (r !! "missed_count" = Some (Num 0) ∨ r !! "seen_count" = Some (Num 0)).
Proof.
  intros r.
  apply (counters_in_built_tables table_after_three_misses "10.0.0.1:27015" r).
  - unfold table_after_three_misses. repeat constructor.
  - reflexivity.
Defined.

Lemma rows_are_keyed_by_their_address_witness :
  let a := "10.0.0.1:27015" in
  let r := row_after_three_misses in
  r !! "addr" = Some (Text a) ∧
  ∃ host port, parse_addr a = Some (host, port) ∧ r !! "ip" = Some (Text host).
Proof.
  intros a r.
  apply (rows_are_keyed_by_their_address table_after_three_misses a r).
  - unfold table_after_three_misses. repeat constructor.
  - reflexivity.
Defined.

(** ** A threshold that is not a number *)

(** X9: when [SERVER_OFFLINE_THRESHOLD] does not parse, the threshold is
    [NaN] and no number of failed probes takes a server offline: status and
    [offline_since] stay as they are while [missed_count] keeps counting. *)
Theorem nan_threshold_never_offline config addr host port jobs w r m :
  serverOfflineThreshold config = None →
  parse_addr addr = Some (host, port) →
  db w !! addr = Some r →
  r !! "missed_count" = Some (Num m) →
  all_miss jobs →
  ∃ r', db (run config addr jobs w) !! addr = Some r' ∧
        r' !! "status" = r !! "status" ∧
        r' !! "offline_since" = r !! "offline_since" ∧
        r' !! "missed_count" = Some (Num (m + Z.of_nat (List.length jobs))).
Proof.
  intros Hnan Haddr Hr Hm Hall. revert w r m Hr Hm.
  induction jobs as [|[t [serverData|msg]] jobs IH]; intros w r m Hr Hm;
    try discriminate Hall.
  - exists r. cbn. by rewrite Z.add_0_r.
  - specialize (IH Hall). cbn [run foldl fst snd].
    pose proof (miss_step config t addr host port msg w r Haddr Hr) as Hstep.
    destruct (miss_row_no_transition config t r) as [Hst' Hos'].
    { by rewrite Hnan. }
    destruct (IH _ _ (m + 1) Hstep) as (r' & Hr' & Hst & Hos & Hmc).
    { rewrite miss_row_missed_count, Hm. done. }
    exists r'. split; [exact Hr'|].
    split; [by rewrite Hst|]. split; [by rewrite Hos|].
    rewrite Hmc. do 2 f_equal. cbn [List.length]. lia.
Qed.

Lemma nan_threshold_never_offline_witness :
  let env := fun k => if String.eqb k "SERVER_OFFLINE_THRESHOLD"
                      then Some "three" else None in
  let a := "10.0.0.1:27015" in
  let r : Row := {[ "status" := Text "online"; "offline_since" := Null;
                    "missed_count" := Num 0; "seen_count" := Num 4 ]} in
  let w := {| column_defaults := ∅; db := {[ a := r ]}; logs := [] |} in
  let jobs := [ (1000, Miss "timeout"); (2000, Miss "timeout"); (3000, Miss "timeout");
                (4000, Miss "timeout"); (5000, Miss "timeout") ] in
  ∃ r', db (run (Config.worker env) a jobs w) !! a = Some r' ∧
        r' !! "status" = r !! "status" ∧
        r' !! "offline_since" = r !! "offline_since" ∧
        r' !! "missed_count" = Some (Num (0 + Z.of_nat (List.length jobs))).
Proof.
  intros env a r w jobs.
  apply (nan_threshold_never_offline (Config.worker env) a "10.0.0.1" 27015 jobs w r 0).
  - reflexivity.
  - reflexivity.
  - reflexivity.
  - reflexivity.
  - reflexivity.
Defined.

(** ** More on the clean-up job *)

(** X10: when the delete comes back with an error, the clean-up job fails
    with that error, deletes nothing and logs the failure after its opening
    entry. *)
Theorem cleanup_fails_without_deleting config tz flt now cutoff w :
  cutoff_date tz now (serverDeleteThresholdDays config) = Some cutoff →
  delete_fails flt = true →
  result (cleanupWorker config tz flt now) w = Throw (PostgrestError "delete failed") ∧
  db (exec (cleanupWorker config tz flt now) w) = db w ∧
  logs (exec (cleanupWorker config tz flt now) w)
  = (logs w
     ++ [ {| level := INFO; message := "Cleaning up servers offline since";
             log_addr := None |};
          {| level := ERROR; message := "Failed to clean up offline servers";
             log_addr := None |} ])%list.
Proof.
  intros Hc Hflt. unfold result, exec, cleanupWorker. rewrite Hc.
  unfold try_catch, logger, mbind, M_bind, mret, M_ret, throw, delete_offline_before.
  rewrite Hflt. cbn [fst snd db logs]. by rewrite <- app_assoc.
Qed.

Lemma cleanup_fails_without_deleting_witness :
  let a := "10.0.0.1:27015" in
  let r : Row := {[ "status" := Text "offline"; "offline_since" := Time 0 ]} in
  let w := {| column_defaults := ∅; db := {[ a := r ]}; logs := [] |} in
  let flt := {| upsert_fails := false; rpc_fails := false; select_fails := false;
                update_fails := false; delete_fails := true |} in
  let tz := fixed_zone 0 in
  let now := 30 * ms_per_day in
  result (cleanupWorker Config.defaults tz flt now) w
  = Throw (PostgrestError "delete failed") ∧
  db (exec (cleanupWorker Config.defaults tz flt now) w) = db w ∧
  logs (exec (cleanupWorker Config.defaults tz flt now) w)
  = (logs w
     ++ [ {| level := INFO; message := "Cleaning up servers offline since";
             log_addr := None |};
          {| level := ERROR; message := "Failed to clean up offline servers";
             log_addr := None |} ])%list.
Proof.
  intros a r w flt tz now.
  apply (cleanup_fails_without_deleting Config.defaults tz flt now (23 * ms_per_day) w).
  - reflexivity.
  - reflexivity.
Defined.

(** X11: when the configured number of days is [NaN], or so large that the
    cut-off falls more than 8.64e15 ms from the epoch, the clean-up job
    throws a [RangeError] and leaves the table and the log as they were: the
    date is formatted before the first log entry and the database call. *)
Theorem cleanup_throws_on_invalid_cutoff config tz flt now w :
  (serverDeleteThresholdDays config = None ∨
   ∃ days, serverDeleteThresholdDays config = Some days ∧
           8640000000000000 < Z.abs (UTC tz (LocalTime tz now - days * ms_per_day))) →
  result (cleanupWorker config tz flt now) w = Throw (RangeError "Invalid time value") ∧
  exec (cleanupWorker config tz flt now) w = w.
Proof.
  intros Hbad.
  assert (cutoff_date tz now (serverDeleteThresholdDays config) = None) as Hc.
  { destruct Hbad as [->|(days & -> & Hbig)]; [reflexivity|].
    unfold cutoff_date. rewrite setDate_getDate_minus. unfold TimeClip.
    destruct (Z.leb_spec (Z.abs (UTC tz (LocalTime tz now - days * ms_per_day)))
                8640000000000000); [lia|done]. }
  unfold result, exec, cleanupWorker. rewrite Hc. split; reflexivity.
Qed.

Lemma cleanup_throws_on_invalid_cutoff_witness :
  let env := fun k => if String.eqb k "SERVER_DELETE_THRESHOLD_DAYS"
                      then Some "-1000000000" else None in
  let a := "10.0.0.1:27015" in
  let r : Row := {[ "status" := Text "offline"; "offline_since" := Time 0 ]} in
  let w := {| column_defaults := ∅; db := {[ a := r ]}; logs := [] |} in
  let now := 1710417600000 in
  result (cleanupWorker (Config.worker env) (fixed_zone 0) no_faults now) w
  = Throw (RangeError "Invalid time value") ∧
  exec (cleanupWorker (Config.worker env) (fixed_zone 0) no_faults now) w = w.
Proof.
  intros env a r w now.
  apply (cleanup_throws_on_invalid_cutoff (Config.worker env) (fixed_zone 0)
           no_faults now w).
  right. exists (-1000000000). split; [reflexivity|].
  vm_compute. reflexivity.
Defined.

Lemma offline_before_mono c1 c2 (r : Row) :
  c1 ≤ c2 → offline_before c1 r = true → offline_before c2 r = true.
Proof.
  intros Hle. rewrite !offline_before_true.
  intros [Hst (t & Ht & Hlt)]. split; [done|]. exists t. split; [done|]. lia.
Qed.

Lemma cleanup_result_size config tz now cutoff w :
  cutoff_date tz now (serverDeleteThresholdDays config) = Some cutoff →
  result (cleanupWorker config tz no_faults now) w
  = Normal (Z.of_nat (size (db w))
            - Z.of_nat (size (db (exec (cleanupWorker config tz no_faults now) w)))).
Proof.
  intros Hc. rewrite (cleanup_db config tz now cutoff w Hc).
  rewrite (cleanup_count config tz now cutoff w Hc). f_equal.
  pose proof (map_filter_union_complement
                (fun kv : string * Row => offline_before cutoff kv.2 = true)
                (db w)) as Hsplit.
  pose proof (map_size_disj_union _ _
                (map_disjoint_filter_complement
                   (fun kv : string * Row => offline_before cutoff kv.2 = true)
                   (db w))) as Hsize.
  cbv beta in Hsplit, Hsize. rewrite Hsplit in Hsize. lia.
Qed.

(** X12: two clean-up jobs in a row, the second with a cut-off that is not
    earlier, leave the table that one job at the second clock leaves, and
    their counts add up to that job's count; a second job with the same
    cut-off deletes nothing. *)
Theorem cleanup_twice config tz now1 now2 cutoff1 cutoff2 w :
  cutoff_date tz now1 (serverDeleteThresholdDays config) = Some cutoff1 →
  cutoff_date tz now2 (serverDeleteThresholdDays config) = Some cutoff2 →
  cutoff1 ≤ cutoff2 →
  let w1 := exec (cleanupWorker config tz no_faults now1) w in
  let w2 := exec (cleanupWorker config tz no_faults now2) w1 in
  db w2 = db (exec (cleanupWorker config tz no_faults now2) w) ∧
  ∃ c1 c2 c,
    result (cleanupWorker config tz no_faults now1) w = Normal c1 ∧
    result (cleanupWorker config tz no_faults now2) w1 = Normal c2 ∧
    result (cleanupWorker config tz no_faults now2) w = Normal c ∧
    c1 + c2 = c ∧
    (cutoff1 = cutoff2 → c2 = 0 ∧ db w2 = db w1).
Proof.
  intros Hc1 Hc2 Hle w1 w2.
  assert (db w2 = db (exec (cleanupWorker config tz no_faults now2) w)) as Hdb.
  { subst w2 w1. rewrite (cleanup_db config tz now2 cutoff2 _ Hc2).
    rewrite (cleanup_db config tz now1 cutoff1 _ Hc1).
    rewrite (cleanup_db config tz now2 cutoff2 _ Hc2).
    rewrite map_filter_filter. apply map_filter_ext. intros a r _. cbn [snd].
    split; [tauto|]. intros Hkeep. split; [done|]. intros Hgone. apply Hkeep.
    by apply (offline_before_mono cutoff1). }
  split; [exact Hdb|].
  eexists _, _, _.
  split; [apply (cleanup_result_size config tz now1 cutoff1 w Hc1)|].
  split; [apply (cleanup_result_size config tz now2 cutoff2 w1 Hc2)|].
  split; [apply (cleanup_result_size config tz now2 cutoff2 w Hc2)|].
  fold w1. fold w2. rewrite <- Hdb. split; [lia|].
  intros ->.
  assert (db w2 = db w1) as Hsame.
  { subst w2. rewrite (cleanup_db config tz now2 cutoff2 w1 Hc2).
    apply map_filter_id. intros a r Hr. cbn [snd].
    subst w1. rewrite (cleanup_db config tz now1 cutoff2 w Hc1) in Hr.
    by apply map_lookup_filter_Some in Hr as [_ Hkeep]. }
  split; [|done]. rewrite Hsame. lia.
Qed.

Lemma cleanup_twice_witness :
  let old : Row := {[ "status" := Text "offline"; "offline_since" := Time 0 ]} in
  let recent : Row := {[ "status" := Text "offline";
                         "offline_since" := Time (2 * ms_per_day) ]} in
  let live : Row := {[ "status" := Text "online"; "offline_since" := Null ]} in
  let w := {| column_defaults := ∅;
              db := {[ "10.0.0.1:27015" := old; "10.0.0.2:27015" := recent;
                       "10.0.0.3:27015" := live ]};
              logs := [] |} in
  let tz := fixed_zone 0 in
  let now1 := 8 * ms_per_day in
  let now2 := 10 * ms_per_day in
  let w1 := exec (cleanupWorker Config.defaults tz no_faults now1) w in
  let w2 := exec (cleanupWorker Config.defaults tz no_faults now2) w1 in
  db w2 = db (exec (cleanupWorker Config.defaults tz no_faults now2) w) ∧
  ∃ c1 c2 c,
    result (cleanupWorker Config.defaults tz no_faults now1) w = Normal c1 ∧
    result (cleanupWorker Config.defaults tz no_faults now2) w1 = Normal c2 ∧
    result (cleanupWorker Config.defaults tz no_faults now2) w = Normal c ∧
    c1 + c2 = c ∧
    (1 * ms_per_day = 3 * ms_per_day → c2 = 0 ∧ db w2 = db w1).
Proof.
  intros old recent live w tz now1 now2.
  apply (cleanup_twice Config.defaults tz now1 now2 (1 * ms_per_day) (3 * ms_per_day) w).
  - reflexivity.
  - reflexivity.
  - unfold ms_per_day. lia.
Defined.

(** * Further properties of the gamemode detector *)

(** X13: the detector answers one of twelve gamemodes or [public]. *)
Theorem detectGamemode_range serverData :
  detectGamemode serverData ∈ gamemodes.
Proof.
  unfold detectGamemode, gamemodes. cbv zeta.
  destruct (startsWith (toLowerCase (or_empty (sd_map serverData))) "surf_");
    [cbn [orb]; set_solver|].
  destruct (includes (toLowerCase (or_empty (sd_name serverData))) "surf");
    [cbn [orb]; set_solver|].
  cbn [orb andb].
  repeat case_match; set_solver.
Qed.

Lemma lower_ascii_idemp c : lower_ascii (lower_ascii c) = lower_ascii c.
Proof. by destruct c as [[] [] [] [] [] [] [] []]. Qed.

Lemma toLowerCase_idemp s : toLowerCase (toLowerCase s) = toLowerCase s.
Proof.
  induction s as [|c s IH]; [done|].
  cbn [toLowerCase]. by rewrite lower_ascii_idemp, IH.
Qed.

(** X14: the detector reads the name and the map up to the case of their
    letters, and a name or map that is missing as the empty one. *)
Theorem detectGamemode_name_map_case serverData :
  detectGamemode
    (with_name_map serverData
       (Some (toLowerCase (or_empty (sd_name serverData))))
       (Some (toLowerCase (or_empty (sd_map serverData)))))
  = detectGamemode serverData.
Proof.
  unfold detectGamemode, with_name_map, tags_of.
  cbn [sd_name sd_map sd_raw or_empty]. by rewrite !toLowerCase_idemp.
Qed.

(** ** Tags that come as one comma-separated string *)

Lemma split_not_nil sep s : split sep s ≠ [].
Proof.
  destruct s as [|c s]; [done|]. cbn [split].
  destruct (Ascii.eqb c sep); [done|]. by destruct (split sep s).
Qed.

(** Whether [s] starts with a word without comma is decided by its first
    piece. *)
Lemma startsWith_first_piece kw s :
  no_comma kw = true →
  startsWith (hd "" (split "," s)) kw = startsWith s kw.
Proof.
  revert s. induction kw as [|k kw IH]; intros s Hkw.
  - by destruct (hd "" (split "," s)), s.
  - cbn [no_comma] in Hkw. apply andb_true_iff in Hkw as [Hk Hkw].
    apply negb_true_iff in Hk.
    destruct s as [|c s]; [done|]. cbn [split].
    destruct (Ascii.eqb c ",") eqn:Hc.
    + apply Ascii.eqb_eq in Hc as ->. cbn [hd startsWith].
      rewrite Ascii.eqb_sym, Hk. done.
    + specialize (IH s Hkw). pose proof (split_not_nil "," s) as Hnil.
      destruct (split "," s) as [|h t]; [done|].
      cbn [hd startsWith] in *. by rewrite IH.
Qed.

Lemma some_includes_split kw s :
  kw ≠ "" → no_comma kw = true →
  some (fun tag => includes tag kw) (split "," s) = includes s kw.
Proof.
  intros Hne Hkw. unfold some. induction s as [|c s IH].
  - cbn [split existsb]. by rewrite orb_false_r.
  - pose proof (startsWith_first_piece kw (String c s) Hkw) as Hfirst.
    cbn [split] in *. destruct (Ascii.eqb c ",") eqn:Hc.
    + cbn [existsb hd] in *. rewrite IH. cbn [includes].
      rewrite <- Hfirst. by destruct kw.
    + pose proof (split_not_nil "," s) as Hnil.
      destruct (split "," s) as [|h t]; [done|].
      cbn [existsb hd] in *. cbn [includes]. rewrite Hfirst.
      rewrite <- IH. by rewrite orb_assoc.
Qed.

Lemma some_orb {A} (f g : A → bool) l :
  some (fun x => f x || g x) l = some f l || some g l.
Proof.
  unfold some. induction l as [|x l IH]; [done|]. cbn [existsb]. rewrite IH.
  destruct (f x), (g x), (existsb f l), (existsb g l); reflexivity.
Qed.

Lemma some_includes_split1 kw s :
  kw ≠ "" → no_comma kw = true →
  some (fun tag => includes tag kw) (split "," s)
  = some (fun tag => includes tag kw) [s].
Proof.
  intros Hne Hkw. rewrite some_includes_split by done.
  unfold some. cbn [existsb]. by rewrite orb_false_r.
Qed.

Lemma some_includes_split2 kw1 kw2 s :
  kw1 ≠ "" → no_comma kw1 = true → kw2 ≠ "" → no_comma kw2 = true →
  some (fun tag => includes tag kw1 || includes tag kw2) (split "," s)
  = some (fun tag => includes tag kw1 || includes tag kw2) [s].
Proof.
  intros. rewrite !some_orb, !some_includes_split1 by done. reflexivity.
Qed.

(** X15: tags that arrive as one comma-separated string are classified as
    the whole string taken as a single tag would be: the tag words of the
    rules contain no comma, so cutting the string at the commas changes no
    match. *)
Theorem detectGamemode_comma_string serverData s :
  detectGamemode (with_tags serverData (TagsString s))
  = detectGamemode (with_tags serverData (TagsArray [s])).
Proof.
  unfold detectGamemode, with_tags, tags_of. cbn [sd_name sd_map sd_raw raw_tags].
  rewrite !some_includes_split1 by done.
  rewrite !some_includes_split2 by done.
  reflexivity.
Qed.

(** * Further properties of the master-list job *)

Lemma slice_batch {A} i (l : list A) :
  Master.slice i (i + Master.BATCH_SIZE) l = take Master.BATCH_SIZE (drop i l).
Proof. unfold Master.slice. f_equal. lia. Qed.

Lemma batches_from_concat fuel i servers :
  (List.length servers - i ≤ fuel)%nat →
  List.concat (Master.batches_from fuel i servers) = drop i servers.
Proof.
  revert i. induction fuel as [|fuel IH]; intros i Hfuel.
  - cbn. symmetry. apply drop_ge. lia.
  - cbn [Master.batches_from].
    destruct (Nat.ltb_spec i (List.length servers)) as [Hlt|Hge].
    + cbn [List.concat]. rewrite slice_batch, IH by (unfold Master.BATCH_SIZE; lia).
      rewrite <- drop_drop. apply take_drop.
    + cbn. symmetry. by apply drop_ge.
Qed.

Lemma batches_from_sizes fuel i servers :
  Forall (fun b => (0 < List.length b ≤ Master.BATCH_SIZE)%nat)
    (Master.batches_from fuel i servers).
Proof.
  revert i. induction fuel as [|fuel IH]; intros i; [constructor|].
  cbn [Master.batches_from].
  destruct (Nat.ltb_spec i (List.length servers)) as [Hlt|Hge]; [|constructor].
  constructor; [|apply IH].
  rewrite slice_batch, length_take, length_drop. unfold Master.BATCH_SIZE. lia.
Qed.

Lemma batches_from_count fuel i servers :
  (List.length servers - i ≤ fuel)%nat →
  List.length (Master.batches_from fuel i servers)
  = ((List.length servers - i + 99) / 100)%nat.
Proof.
  revert i. induction fuel as [|fuel IH]; intros i Hfuel.
  - cbn. replace (List.length servers - i)%nat with 0%nat by lia. reflexivity.
  - cbn [Master.batches_from].
    destruct (Nat.ltb_spec i (List.length servers)) as [Hlt|Hge].
    + cbn [List.length]. rewrite IH by (unfold Master.BATCH_SIZE; lia).
      unfold Master.BATCH_SIZE.
      destruct (Nat.le_gt_cases (List.length servers - i) 100) as [Hsmall|Hbig].
      * replace (List.length servers - (i + 100))%nat with 0%nat by lia.
        change ((0 + 99) / 100)%nat with 0%nat.
        apply Nat.div_unique with (r := (List.length servers - i - 1)%nat); lia.
      * replace (List.length servers - i + 99)%nat
          with (List.length servers - (i + 100) + 99 + 1 * 100)%nat by lia.
        rewrite Nat.div_add by lia. lia.
    + cbn. replace (List.length servers - i)%nat with 0%nat by lia. reflexivity.
Qed.

Lemma batches_from_take fuel i k servers :
  (List.length servers - i ≤ fuel)%nat →
  List.concat (take k (Master.batches_from fuel i servers))
  = take (k * Master.BATCH_SIZE) (drop i servers).
Proof.
  revert i k. induction fuel as [|fuel IH]; intros i k Hfuel.
  - cbn. rewrite take_nil, drop_ge by lia. by rewrite take_nil.
  - cbn [Master.batches_from].
    destruct (Nat.ltb_spec i (List.length servers)) as [Hlt|Hge].
    + destruct k as [|k]; [done|]. cbn [take List.concat].
      rewrite slice_batch, IH by (unfold Master.BATCH_SIZE; lia).
      rewrite <- drop_drop. rewrite take_take_drop. reflexivity.
    + rewrite take_nil, drop_ge by lia. by rewrite take_nil.
Qed.

Lemma batches_from_lookup fuel i k servers :
  (List.length servers - i ≤ fuel)%nat →
  Master.batches_from fuel i servers !! k
  = if (i + k * Master.BATCH_SIZE <? List.length servers)%nat
    then Some (take Master.BATCH_SIZE (drop (i + k * Master.BATCH_SIZE) servers))
    else None.
Proof.
  revert i k. induction fuel as [|fuel IH]; intros i k Hfuel.
  - cbn [Master.batches_from]. rewrite lookup_nil.
    destruct (Nat.ltb_spec (i + k * Master.BATCH_SIZE) (List.length servers)); [lia|done].
  - cbn [Master.batches_from].
    destruct (Nat.ltb_spec i (List.length servers)) as [Hlt|Hge].
    + destruct k as [|k].
      * cbn [lookup list_lookup]. rewrite Nat.add_0_r, slice_batch.
        destruct (Nat.ltb_spec i (List.length servers)); [done|lia].
      * cbn [lookup list_lookup]. change (Master.batches_from fuel (i + Master.BATCH_SIZE) servers !! k = if (i + S k * Master.BATCH_SIZE <? List.length servers)%nat then Some (take Master.BATCH_SIZE (drop (i + S k * Master.BATCH_SIZE) servers)) else None).
        rewrite IH by (unfold Master.BATCH_SIZE; lia).
        replace (i + Master.BATCH_SIZE + k * Master.BATCH_SIZE)%nat
          with (i + S k * Master.BATCH_SIZE)%nat by lia.
        done.
    + rewrite lookup_nil.
      destruct (Nat.ltb_spec (i + k * Master.BATCH_SIZE) (List.length servers)); [lia|done].
Qed.

(** X16: the batches of the master-list job are the consecutive slices of a
    hundred addresses: batch [k] exists exactly when [100 k] is below the
    number of addresses and holds the addresses from position [100 k] on, a
    hundred of them or what is left; so there are [ceil (n / 100)] batches,
    none empty, and together they are the address list, in order. *)
Theorem batches_are_slices servers :
  (∀ k, Master.batches servers !! k
        = if (k * 100 <? List.length servers)%nat
          then Some (take 100 (drop (k * 100) servers))
          else None) ∧
  List.concat (Master.batches servers) = servers ∧
  Forall (fun b => (0 < List.length b ≤ 100)%nat) (Master.batches servers) ∧
  List.length (Master.batches servers) = ((List.length servers + 99) / 100)%nat.
Proof.
  unfold Master.batches. split; [|split; [|split]].
  - intros k. rewrite batches_from_lookup by lia. reflexivity.
  - rewrite batches_from_concat by lia. reflexivity.
  - apply batches_from_sizes.
  - rewrite batches_from_count by lia. by rewrite Nat.sub_0_r.
Qed.


Lemma add_batches_fails k f bs st :
  (k ≤ f < k + List.length bs)%nat →
  ∃ e st', Master.add_batches k bs (Some f) st = (Throw e, st') ∧
           Master.queue st'
           = (Master.queue st ++ (Master.make_job <$> List.concat (take (f - k) bs)))%list ∧
           Master.last_master_update st' = Master.last_master_update st.
Proof.
  revert k st. induction bs as [|b bs IH]; intros k st Hf; [cbn in Hf; lia|].
  cbn [Master.add_batches]. case_decide as Hk.
  - injection Hk as ->. eexists _, st. split; [reflexivity|].
    rewrite Nat.sub_diag. cbn. by rewrite app_nil_r.
  - assert (f ≠ k) by congruence.
    destruct (IH (S k)
                (Master.log DEBUG "Queued batch of server queries"
                   {| Master.queue := (Master.queue st ++ (Master.make_job <$> b))%list;
                      Master.last_master_update := Master.last_master_update st;
                      Master.mlogs := Master.mlogs st |}))
      as (e & st' & Hrun & Hq & Hlast); [cbn [List.length] in Hf; lia|].
    exists e, st'. split; [exact Hrun|]. split; [|exact Hlast].
    rewrite Hq. cbn [Master.log Master.queue].
    replace (f - k)%nat with (S (f - S k)) by lia. cbn [take List.concat].
    by rewrite fmap_app, app_assoc.
Qed.


(** X18: when the master server cannot be asked, the job fails, queues
    nothing and leaves the time of the last update alone; when the queue
    rejects batch [k], the job fails as well, the [100 k] addresses of the
    batches before stay queued and the time of the last update is not set.
    Either way the last log entry is the error. *)
Theorem masterWorker_failures servers now st :
  (∃ e st', Master.masterWorker None None now st = (Throw e, st') ∧
            Master.queue st' = Master.queue st ∧
            Master.last_master_update st' = Master.last_master_update st ∧
            last (Master.mlogs st')
            = Some {| level := ERROR;
                      message := "Failed to fetch or process Master Server list";
                      log_addr := None |}) ∧
  (∀ k, (k < List.length (Master.batches servers))%nat →
        ∃ e st', Master.masterWorker (Some servers) (Some k) now st = (Throw e, st') ∧
                 Master.queue st'
                 = (Master.queue st ++ (Master.make_job <$> take (k * 100) servers))%list ∧
                 Master.last_master_update st' = Master.last_master_update st ∧
                 last (Master.mlogs st')
                 = Some {| level := ERROR;
                           message := "Failed to fetch or process Master Server list";
                           log_addr := None |}).
Proof.
  split.
  - eexists _, _. split; [reflexivity|]. cbn [Master.log Master.queue
      Master.last_master_update Master.mlogs]. split; [done|]. split; [done|].
    by rewrite last_snoc.
  - intros k Hk. unfold Master.masterWorker.
    destruct (add_batches_fails 0 k (Master.batches servers)
                (Master.log INFO "Found CS2 servers from Master Server"
                   (Master.log INFO "Starting Master Server query for CS2 servers" st)))
      as (e & st1 & Hrun & Hq & Hlast); [lia|].
    rewrite Hrun. eexists _, _. split; [reflexivity|].
    cbn [Master.log Master.queue Master.last_master_update Master.mlogs] in *.
    split; [|split; [done|by rewrite last_snoc]].
    rewrite Hq, Nat.sub_0_r. unfold Master.batches.
    rewrite batches_from_take by lia. by rewrite drop_0.
Qed.

Lemma masterWorker_failures_witness :
  let servers := [ "10.0.0.1:27015"; "10.0.0.2:27015"; "10.0.0.3:27015" ] in
  let st := {| Master.queue := []; Master.last_master_update := Some 5;
               Master.mlogs := [] |} in
  ∃ e st', Master.masterWorker (Some servers) (Some 0%nat) 1000 st = (Throw e, st') ∧
           Master.queue st'
           = (Master.queue st ++ (Master.make_job <$> take (0 * 100) servers))%list ∧
           Master.last_master_update st' = Master.last_master_update st ∧
           last (Master.mlogs st')
           = Some {| level := ERROR;
                     message := "Failed to fetch or process Master Server list";
                     log_addr := None |}.
Proof.
  intros servers st.
  destruct (masterWorker_failures servers 1000 st) as [_ Hbatch].
  apply (Hbatch 0%nat). vm_compute. lia.
Defined.

(** * Further properties of the address check *)

Lemma split_first sep s h t :
  split sep s = h :: t →
  includes h (String sep "") = false ∧
  (t = [] → s = h) ∧
  (t ≠ [] → startsWith s (h +:+ String sep "") = true).
Proof.
  revert h t. induction s as [|c s IH]; intros h t.
  - cbn. intros [= <- <-]. done.
  - cbn [split]. destruct (Ascii.eqb c sep) eqn:Hc.
    + intros [= <- <-]. split; [done|]. split.
      * intros Hnil. by destruct (split_not_nil sep s).
      * intros _. apply Ascii.eqb_eq in Hc as ->. simpl.
        rewrite Ascii.eqb_refl. by destruct s.
    + destruct (split sep s) as [|h' t'] eqn:Hs; [by destruct (split_not_nil sep s)|].
      intros [= <- <-]. destruct (IH h' t' eq_refl) as (Hno & Hone & Hmore).
      split; [|split].
      * cbn [includes startsWith] in *. rewrite Hc. cbn [andb orb]. exact Hno.
      * intros Hnil. by rewrite (Hone Hnil).
      * intros Hne.
        change (String c h' +:+ String sep "") with (String c (h' +:+ String sep "")).
        cbn [startsWith]. rewrite Ascii.eqb_refl. by apply Hmore.
Qed.

Lemma startsWith_includes h p s :
  startsWith s (h +:+ p) = true → includes s p = true.
Proof.
  revert s. induction h as [|c h IH]; intros s.
  - change ("" +:+ p) with p. intros Hst. destruct s; cbn [includes]; by rewrite Hst.
  - change (String c h +:+ p) with (String c (h +:+ p)).
    destruct s as [|a s]; [discriminate|]. cbn [startsWith].
    intros [_ Hst]%andb_true_iff. cbn [includes].
    rewrite (IH s Hst). by rewrite orb_true_r.
Qed.

(** X19: an address the worker accepts has a host part that is not empty and
    holds no colon, starts with that host followed by a colon, and its port
    is the number [parseInt] reads after that colon, which is not 0; an
    address without a colon is refused, and so is one that starts with a
    colon. *)
Theorem parse_addr_accepts :
  (∀ addr host port,
      parse_addr addr = Some (host, port) →
      host ≠ "" ∧ port ≠ 0 ∧
      includes host ":" = false ∧
      startsWith addr (host +:+ ":") = true ∧
      ∃ portStr, split ":" addr !! 1%nat = Some portStr ∧
                 parseInt (Some portStr) (Some 10) = Some port) ∧
  (∀ addr, includes addr ":" = false → parse_addr addr = None) ∧
  (∀ addr, startsWith addr ":" = true → parse_addr addr = None).
Proof.
  split; [|split].
  - intros addr host port. unfold parse_addr.
    destruct (split ":" addr) as [|h t] eqn:Hs; [by destruct (split_not_nil ":" addr)|].
    destruct (split_first ":" addr h t Hs) as (Hno & _ & Hmore).
    cbn [lookup list_lookup].
    destruct h as [|c h]; [discriminate|]. cbn [truthy_string negb orb].
    destruct t as [|portStr t].
    + cbn. discriminate.
    + cbn [lookup list_lookup].
      destruct (parseInt (Some portStr) (Some 10)) as [p|] eqn:Hp; [|discriminate].
      cbn [truthy_number]. destruct (Z.eqb_spec p 0) as [->|Hp0]; [discriminate|].
      cbn [negb]. intros [= <- <-].
      split; [done|]. split; [done|]. split; [exact Hno|].
      split; [by apply Hmore|]. by exists portStr.
  - intros addr Hno. unfold parse_addr.
    destruct (split ":" addr) as [|h t] eqn:Hs; [by destruct (split_not_nil ":" addr)|].
    destruct (split_first ":" addr h t Hs) as (_ & _ & Hmore).
    destruct t as [|portStr t].
    + cbn [lookup list_lookup]. destruct h; cbn; reflexivity.
    + specialize (Hmore ltac:(done)). apply startsWith_includes in Hmore. congruence.
  - intros addr Hst. unfold parse_addr.
    destruct addr as [|c addr]; [discriminate|]. cbn [startsWith] in Hst.
    apply andb_true_iff in Hst as [Hst _]. cbn [split]. rewrite Hst. reflexivity.
Qed.

Lemma parse_addr_accepts_witness :
  "10.0.0.1" ≠ "" ∧ 27015 ≠ 0 ∧
  includes "10.0.0.1" ":" = false ∧
  startsWith "10.0.0.1:27015" ("10.0.0.1" +:+ ":") = true ∧
  ∃ portStr, split ":" "10.0.0.1:27015" !! 1%nat = Some portStr ∧
             parseInt (Some portStr) (Some 10) = Some 27015.
Proof.
  destruct parse_addr_accepts as (Hacc & _ & _).
  apply (Hacc "10.0.0.1:27015" "10.0.0.1" 27015). reflexivity.
Defined.

(** * Further properties of the read API *)


(** X21: for a positive limit, the number of pages in the answer is the
    least number of pages that hold all rows, the ranges of the pages follow
    each other without gap or overlap from row 0 on, and every row of the
    result lies in the range of exactly the page [i / limit + 1], which is
    one of the pages counted. *)
Theorem pages_cover_rows count limit :
  0 ≤ count → 0 < limit →
  count ≤ Api.pages count limit * limit < count + limit ∧
  (Api.range 1 limit).1 = 0 ∧
  (∀ p, (Api.range (p + 1) limit).1 = (Api.range p limit).2 + 1) ∧
  (∀ i, 0 ≤ i < count →
        1 ≤ i / limit + 1 ≤ Api.pages count limit ∧
        ∀ p, (Api.range p limit).1 ≤ i ≤ (Api.range p limit).2 ↔ p = i / limit + 1).
Proof.
  intros Hcount Hlimit. unfold Api.pages, Api.range. cbn [fst snd].
  pose proof (Z.div_mod (- count) limit ltac:(lia)) as Hdm.
  pose proof (Z.mod_pos_bound (- count) limit Hlimit) as Hmod.
  split; [nia|]. split; [lia|]. split; [intros p; lia|].
  intros i Hi.
  pose proof (Z.div_mod i limit ltac:(lia)) as Hidm.
  pose proof (Z.mod_pos_bound i limit Hlimit) as Himod.
  split; [nia|]. intros p. split; [nia|]. intros ->. nia.
Qed.

Lemma pages_cover_rows_witness :
  230 ≤ Api.pages 230 50 * 50 < 230 + 50 ∧
  (Api.range 1 50).1 = 0 ∧
  (∀ p, (Api.range (p + 1) 50).1 = (Api.range p 50).2 + 1) ∧
  (∀ i, 0 ≤ i < 230 →
        1 ≤ i / 50 + 1 ≤ Api.pages 230 50 ∧
        ∀ p, (Api.range p 50).1 ≤ i ≤ (Api.range p 50).2 ↔ p = i / 50 + 1).
Proof. apply (pages_cover_rows 230 50); lia. Defined.

(** X22: the result is always sorted by one of the five allowed columns:
    by the column asked for when it is one of them, by [players] otherwise
    and by default; the order is ascending exactly when the parameter spells
    [asc] in any mix of upper and lower case. *)
Theorem sorting_is_whitelisted sortBy sortOrder :
  Api.sort_field sortBy ∈ Api.validSortFields ∧
  (∀ s, sortBy = Some s → s ∈ Api.validSortFields → Api.sort_field sortBy = s) ∧
  (∀ s, sortBy = Some s → s ∉ Api.validSortFields → Api.sort_field sortBy = "players") ∧
  Api.sort_field None = "players" ∧
  (Api.ascending sortOrder = true ↔
   ∃ o, sortOrder = Some o ∧ toLowerCase o = "asc").
Proof.
  assert (∀ s, existsb (String.eqb s) Api.validSortFields = true ↔ s ∈ Api.validSortFields)
    as Hin.
  { intros s. rewrite existsb_exists. split.
    - intros (x & Hx & Heq). apply String.eqb_eq in Heq as ->. by apply list_elem_of_In.
    - intros Hs. exists s. split; [by apply list_elem_of_In|apply String.eqb_refl]. }
  unfold Api.sort_field. split; [|split; [|split; [|split]]].
  - destruct (existsb _ _) eqn:He; [by apply Hin|].
    apply list_elem_of_In. cbn. tauto.
  - intros s -> Hs. cbn [Api.or_default]. apply Hin in Hs. by rewrite Hs.
  - intros s -> Hs. cbn [Api.or_default].
    destruct (existsb _ _) eqn:He; [|done]. apply Hin in He. done.
  - reflexivity.
  - unfold Api.ascending. rewrite String.eqb_eq. split.
    + destruct sortOrder as [o|]; [eauto|discriminate].
    + intros (o & -> & Ho). exact Ho.
Qed.

Lemma sorting_is_whitelisted_witness :
  Api.sort_field (Some "ping") = "ping" ∧
  (Api.ascending (Some "ASC") = true ↔
   ∃ o, Some "ASC" = Some o ∧ toLowerCase o = "asc").
Proof.
  destruct (sorting_is_whitelisted (Some "ping") (Some "ASC"))
    as (_ & Hvalid & _ & _ & Hasc).
  split; [|exact Hasc].
  apply (Hvalid "ping"); [reflexivity|].
  apply list_elem_of_In. cbn. tauto.
Defined.


Lemma serverWorker_touches_own_row_only_witness :
  let r : Row := {[ "status" := Text "online"; "missed_count" := Num 0;
                    "seen_count" := Num 4 ]} in
  let w := {| column_defaults := ∅;
              db := {[ "10.0.0.1:27015" := r; "10.0.0.2:27015" := r ]}; logs := [] |} in
  let flt := {| upsert_fails := true; rpc_fails := false; select_fails := false;
                update_fails := false; delete_fails := false |} in
  db (exec (serverWorker Config.defaults flt 1000 (Hit casual_server) "10.0.0.1:27015") w)
    !! "10.0.0.2:27015"
  = db w !! "10.0.0.2:27015".
Proof.
  intros r w flt.
  destruct (serverWorker_touches_own_row_only Config.defaults flt 1000
              (Hit casual_server) "10.0.0.1:27015" w) as [Hother _].
  apply Hother. discriminate.
Defined.

Lemma rows_appear_only_by_successful_probe_witness :
  let a := "10.0.0.1:27015" in
  let w := {| column_defaults := {[ "seen_count" := Num 0 ]}; db := ∅; logs := [] |} in
  a = a ∧ is_Some (parse_addr a) ∧
  (∃ serverData, Hit casual_server = Hit serverData) ∧
  upsert_fails no_faults = false.
Proof.
  intros a w.
  destruct (rows_appear_only_by_successful_probe Config.defaults no_faults 1000
              (Hit casual_server) a w) as [_ Hnew].
  apply (Hnew a).
  - reflexivity.
  - eexists. reflexivity.
Defined.

(** The cut-off across a clock change: in a zone that moves from five to
    four hours behind UTC on 10 March 2024 at 07:00 UTC, the job of 14 March
    12:00 UTC with seven days takes 7 March 13:00 UTC as its cut-off, an hour
    less than seven times 24 hours back, and deletes a row that went offline
    at 12:30 UTC on 7 March. *)
Example cutoff_across_clock_change :
  let tz := {| offset_at_utc := fun t => if t <? 1710054000000
                                         then -18000000 else -14400000;
               offset_at_local := fun t => if t <? 1710036000000
                                           then -18000000 else -14400000 |} in
  let now := 1710417600000 in
  let r : Row := {[ "status" := Text "offline"; "offline_since" := Time 1709814600000 ]} in
  let w := {| column_defaults := ∅; db := {[ "10.0.0.1:27015" := r ]}; logs := [] |} in
  cutoff_date tz now (Some 7) = Some (now - 7 * ms_per_day + 3600000) ∧
  now - 1709814600000 < 7 * ms_per_day ∧
  db (exec (cleanupWorker Config.defaults tz no_faults now) w) !! "10.0.0.1:27015" = None ∧
  result (cleanupWorker Config.defaults tz no_faults now) w = Normal 1.
Proof.
  intros tz now r w.
  split; [reflexivity|]. split; [unfold now, ms_per_day; lia|]. split; reflexivity.
Qed.
